(** * Wallet Autopilot agent: rule engine, delegation registry, executor, monitor

    A shallow embedding of the backend agent of the repository
    (backend/src/agent/{ruleEngine,delegationRegistry,executor,monitor}.ts and
    backend/src/services/envio.ts) together with the properties its
    specification states about it.

    Conventions of the embedding:
    - a JS string is a [string]; a JS array is a [list]; [null]/[undefined]
      is [None];
    - console output and calls to external services are recorded, in program
      order, in a trace of [event]s;
    - a function that may throw returns an [outcome]; [Eff A] pairs the
      trace a computation emitted with its outcome;
    - what the outside world decides (environment variables, the answer of
      the indexer, the clock, whether viem accepts an address) is an explicit
      field of [World]. *)

From Stdlib Require Import String Ascii List ZArith NArith Bool Lia DecimalString DecimalN.
Import ListNotations.
Open Scope string_scope.
Open Scope list_scope.

(** ** Effects: console, external calls, exceptions *)

(** A thrown JS [Error], by its message. *)
Definition exn := string.

Inductive event : Type :=
| ConsoleLog (msg : string)
| ConsoleError (label : string) (error : exn)
| IndexerRequest (queryName owner : string)
    (* client.request(query, { owner }) of services/envio.ts *)
| RedeemDelegations (smartAccount token spender : string).
    (* a submission to the authority provider: executor.ts imports
       redeemDelegations from the delegation toolkit *)

Inductive outcome (A : Type) : Type :=
| Returned (a : A)
| Thrown (e : exn).
Arguments Returned {A} a.
Arguments Thrown {A} e.

Definition Eff (A : Type) : Type := (list event * outcome A)%type.

Definition ret {A} (a : A) : Eff A := ([], Returned a).
Definition throw {A} (e : exn) : Eff A := ([], Thrown e).
Definition emit (ev : event) : Eff unit := ([ev], Returned tt).

Definition bind {A B} (m : Eff A) (k : A -> Eff B) : Eff B :=
  match m with
  | (t, Returned a) => let (t', r) := k a in (t ++ t', r)
  | (t, Thrown e) => (t, Thrown e)
  end.

(** [try { m } catch (error) { h error }] *)
Definition try_catch {A} (m : Eff A) (h : exn -> Eff A) : Eff A :=
  match m with
  | (t, Thrown e) => let (t', r) := h e in (t ++ t', r)
  | (t, Returned a) => (t, Returned a)
  end.

Declare Scope eff_scope.
Delimit Scope eff_scope with eff.
Notation "x <- m ;; k" := (bind m (fun x => k))
  (at level 61, m at next level, right associativity) : eff_scope.
Notation "m ;; k" := (bind m (fun _ => k))
  (at level 61, right associativity) : eff_scope.
Open Scope eff_scope.

Definition trace {A} (m : Eff A) : list event := fst m.
Definition result {A} (m : Eff A) : outcome A := snd m.

(** Number of submissions to the authority provider recorded in a trace. *)
Definition isSubmission (ev : event) : bool :=
  match ev with RedeemDelegations _ _ _ => true | _ => false end.
Definition authorityCalls (t : list event) : nat :=
  length (filter isSubmission t).

(** JS truthiness of a string, and of a possibly undefined string. *)
Definition truthy (s : string) : bool := negb (s =? "").
Definition truthy_opt (s : option string) : bool :=
  match s with Some s => truthy s | None => false end.

(** [String.prototype.toLowerCase] on the ASCII letters of an address. *)
Definition lower_ascii (c : ascii) : ascii :=
  let n := nat_of_ascii c in
  if andb (65 <=? n)%nat (n <=? 90)%nat then ascii_of_nat (n + 32) else c.
Fixpoint toLowerCase (s : string) : string :=
  match s with
  | EmptyString => EmptyString
  | String c s' => String (lower_ascii c) (toLowerCase s')
  end.

(** [Array.prototype.map], whose callback also sees the index. *)
Fixpoint mapi_from {A B} (i : nat) (f : nat -> A -> B) (l : list A) : list B :=
  match l with
  | [] => []
  | a :: l' => f i a :: mapi_from (S i) f l'
  end.
Definition mapi {A B} (f : nat -> A -> B) (l : list A) : list B := mapi_from 0 f l.

(** A TypeScript type guard [(x): x is T => x !== null] used with [filter]:
    the filter keeps the non-null entries, the guard narrows their type. *)
Definition notNull {A} (x : option A) : bool :=
  match x with Some _ => true | None => false end.
Fixpoint narrow {A} (l : list (option A)) : list A :=
  match l with
  | [] => []
  | Some a :: l' => a :: narrow l'
  | None :: l' => narrow l'
  end.

(** ** services/envio.ts *)

Record TokenApprovalData : Type := mkApproval {
  id : string;
  owner : string;
  spender : string;
  token : string;
  amount : string;
  isRisky : bool;
  status : string
}.

(** ** agent/ruleEngine.ts *)

Inductive ActionKind : Type := revoke | cleanup | consolidate.

Record RuleResult : Type := mkRuleResult {
  shouldExecute : bool;
  reason : string;
  action : ActionKind;
  target : string
}.

Definition UNLIMITED : string :=
  "115792089237316195423570985008687907853269984665640564039457584007913129639935".

Definition THIRTY_DAYS : Z := 30 * 24 * 60 * 60 * 1000.

(** Rule: revoke unlimited approvals. The test is [===] on strings. *)
Definition checkUnlimitedApproval (approval : TokenApprovalData) : option RuleResult :=
  if amount approval =? UNLIMITED then
    Some {| shouldExecute := true;
            reason := "Unlimited approval detected";
            action := revoke;
            target := token approval |}
  else None.

(** Rule: revoke approvals older than 30 days (a TODO in the source: the
    body returns null whatever its arguments). *)
Definition checkStaleApproval (approval : TokenApprovalData) (currentTime : Z)
  : option RuleResult :=
  None.

(** Rule: check risky approvals. *)
Definition checkRiskyApproval (approval : TokenApprovalData) : option RuleResult :=
  if isRisky approval then
    Some {| shouldExecute := true;
            reason := "Risky approval detected";
            action := revoke;
            target := token approval |}
  else None.

(** Evaluate all rules for an approval, in priority order. [currentTime] is
    the value [Date.now()] returned for this call. *)
Definition evaluateApproval (currentTime : Z) (approval : TokenApprovalData)
  : option RuleResult :=
  match checkUnlimitedApproval approval with
  | Some unlimitedResult => Some unlimitedResult
  | None =>
    match checkRiskyApproval approval with
    | Some riskyResult => Some riskyResult
    | None =>
      match checkStaleApproval approval currentTime with
      | Some staleResult => Some staleResult
      | None => None
      end
    end
  end.

(** Evaluate all approvals for a wallet. [clock i] is what [Date.now()]
    returns during the call for the element at index [i]. *)
Definition evaluateAllApprovals (clock : nat -> Z) (approvals : list TokenApprovalData)
  : list RuleResult :=
  narrow (filter notNull
            (mapi (fun i approval => evaluateApproval (clock i) approval) approvals)).

(** The specification's wording of [evaluateAll]: go through the approvals in
    input order, keep the action of each approval that has one. *)
Fixpoint evaluateAll_spec (evaluate : TokenApprovalData -> option RuleResult)
  (approvals : list TokenApprovalData) : list RuleResult :=
  match approvals with
  | [] => []
  | a :: rest =>
    match evaluate a with
    | Some r => r :: evaluateAll_spec evaluate rest
    | None => evaluateAll_spec evaluate rest
    end
  end.

(** The numeric value of an amount string (a base-10 uint256, as the indexer
    writes it with [value.toString()]); [None] when it is not all digits. *)
Definition amountValue (s : string) : option N :=
  option_map N.of_uint (NilEmpty.uint_of_string s).

Definition MAX_UINT256 : N := 2 ^ 256 - 1.

(** The indexer's threshold for an unlimited approval (EventHandlers.js). *)
Definition UNLIMITED_THRESHOLD : N := 0xffffffffffffffffffffffffffffffffffffffffffff.

Definition unlimitedAction (approval : TokenApprovalData) : RuleResult :=
  {| shouldExecute := true; reason := "Unlimited approval detected";
     action := revoke; target := token approval |}.

Definition riskyAction (approval : TokenApprovalData) : RuleResult :=
  {| shouldExecute := true; reason := "Risky approval detected";
     action := revoke; target := token approval |}.

(** ** The outside world *)

Record World : Type := mkWorld {
  (** [process.env.AGENT_ADDRESS] and [process.env.AGENT_PRIVATE_KEY] *)
  AGENT_ADDRESS : option string;
  AGENT_PRIVATE_KEY : option string;
  (** viem's [privateKeyToAccount]: the account's address, or a throw on a
      malformed key *)
  privateKeyToAccount : string -> outcome string;
  (** viem's [encodeFunctionData] for [approve(spender, 0)]: the calldata, or
      a throw when [spender] is not an address *)
  encodeFunctionData : string -> outcome string;
  (** the indexer's answer to [client.request(query, { owner })]: the
      [TokenApproval] array of the response, or the thrown error (timeout,
      network failure, GraphQL error) *)
  indexer : string -> string -> outcome (list TokenApprovalData);
  (** [Date.now()] at the i-th evaluation of a cycle *)
  Date_now : nat -> Z
}.

Definition lift {A} (o : outcome A) : Eff A := ([], o).

(** [Number.prototype.toString] of an array length inside a template string. *)
Definition showNat (n : nat) : string := NilZero.string_of_uint (Nat.to_uint n).

(** [String.prototype.repeat] *)
Fixpoint repeatString (s : string) (n : nat) : string :=
  match n with
  | O => ""
  | S n' => (s ++ repeatString s n')%string
  end.

(** [for (const x of xs) { await body(x) }] *)
Fixpoint forEach {A} (xs : list A) (body : A -> Eff unit) : Eff unit :=
  match xs with
  | [] => ret tt
  | x :: rest => body x ;; forEach rest body
  end.

(** services/envio.ts, [getAllApprovals] *)
Definition getAllApprovals (w : World) (owner : string) : Eff (list TokenApprovalData) :=
  try_catch
    (emit (IndexerRequest "GetAllApprovals" (toLowerCase owner)) ;;
     data <- lift (indexer w "GetAllApprovals" (toLowerCase owner)) ;;
     ret data)
    (fun error =>
       emit (ConsoleError "Error fetching approvals:" error) ;;
       ret []).

(** services/envio.ts, [getRiskyApprovals] *)
Definition getRiskyApprovals (w : World) (owner : string) : Eff (list TokenApprovalData) :=
  try_catch
    (emit (IndexerRequest "GetRiskyApprovals" (toLowerCase owner)) ;;
     data <- lift (indexer w "GetRiskyApprovals" (toLowerCase owner)) ;;
     ret data)
    (fun error =>
       emit (ConsoleError "Error fetching risky approvals:" error) ;;
       ret []).

(** ** agent/delegationRegistry.ts *)

Module DelegationRegistry.

Record Scope : Type := mkScope {
  type : string;
  targets : list string;
  selectors : list string
}.

Record DelegationRecord : Type := mkDelegation {
  id : string;
  delegator : string;
  delegate : string;
  scope : Scope;
  createdAt : Z;
  isActive : bool
}.

(** [Map<string, DelegationRecord>]: the entries in insertion order, one
    per key. *)
Definition Delegations : Type := list (string * DelegationRecord).

Definition empty : Delegations := [].

Fixpoint Map_get (key : string) (m : Delegations) : option DelegationRecord :=
  match m with
  | [] => None
  | (k, v) :: m' => if k =? key then Some v else Map_get key m'
  end.

(** [Map.prototype.set]: an existing key keeps its place and takes the new
    value, a new key goes last. *)
Fixpoint Map_set (key : string) (value : DelegationRecord) (m : Delegations)
  : Delegations :=
  match m with
  | [] => [(key, value)]
  | (k, v) :: m' =>
    if k =? key then (k, value) :: m' else (k, v) :: Map_set key value m'
  end.

Definition Map_values (m : Delegations) : list DelegationRecord := map snd m.

Definition register (delegations : Delegations) (delegation : DelegationRecord)
  : Eff Delegations :=
  let delegations' := Map_set (id delegation) delegation delegations in
  emit (ConsoleLog ("Delegation registered: " ++ id delegation)%string) ;;
  ret delegations'.

(** [delegation.isActive = false] on the record stored under the key. *)
Definition deactivate (d : DelegationRecord) : DelegationRecord :=
  {| id := id d; delegator := delegator d; delegate := delegate d;
     scope := scope d; createdAt := createdAt d; isActive := false |}.

Definition revoke (delegations : Delegations) (delegationId : string)
  : Eff Delegations :=
  match Map_get delegationId delegations with
  | Some delegation =>
    let delegations' := Map_set delegationId (deactivate delegation) delegations in
    emit (ConsoleLog ("Delegation revoked: " ++ delegationId)%string) ;;
    ret delegations'
  | None => ret delegations
  end.

Definition getActiveDelegations (delegations : Delegations) (delegate' : string)
  : Eff (list DelegationRecord) :=
  ret (filter (fun d => (delegate d =? delegate') && isActive d)
              (Map_values delegations)).

Definition getDelegationsForWallet (delegations : Delegations) (delegator' : string)
  : Eff (list DelegationRecord) :=
  ret (filter (fun d => delegator d =? delegator') (Map_values delegations)).

Definition hasDelegation (delegations : Delegations) (delegator' delegate' : string)
  : Eff bool :=
  ret (existsb (fun d => (delegator d =? delegator') && (delegate d =? delegate')
                         && isActive d)
               (Map_values delegations)).

(** A registry as [register] and [revoke] build it: one entry per key,
    each filed under the id of its record. *)
Definition wellFormed (m : Delegations) : Prop :=
  NoDup (map fst m) /\ Forall (fun kv => fst kv = id (snd kv)) m.

(** The registry after a computation that cannot throw. *)
Definition after (m : Eff Delegations) (before : Delegations) : Delegations :=
  match result m with
  | Returned delegations' => delegations'
  | Thrown _ => before
  end.

End DelegationRegistry.

(** ** agent/executor.ts *)

Module Executor.

Record Revocation : Type := mkRevocation {
  token : string;
  spender : string
}.

(** [getExecutor]: the singleton is built on first use from the private
    key of the environment; building it again from the same environment
    gives the same executor, so the cache is not modelled. The executor is
    represented by its agent account. *)
Definition getExecutor (w : World) : Eff string :=
  match AGENT_PRIVATE_KEY w with
  | Some privateKey =>
    if truthy privateKey then lift (privateKeyToAccount w privateKey)
    else throw "AGENT_PRIVATE_KEY not set"
  | None => throw "AGENT_PRIVATE_KEY not set"
  end.

Definition revokeApproval (w : World) (smartAccount tokenAddress spenderAddress : string)
  (delegation : DelegationRegistry.DelegationRecord) : Eff string :=
  try_catch
    (data <- lift (encodeFunctionData w spenderAddress) ;;
     emit (ConsoleLog ("Would revoke approval for " ++ tokenAddress
                       ++ " on " ++ smartAccount)%string) ;;
     emit (ConsoleLog
       "Delegation feature will be available once MetaMask Smart Accounts are set up") ;;
     ret ("0x" ++ repeatString "0" 64)%string)
    (fun error =>
       emit (ConsoleError "Error revoking approval:" error) ;;
       throw error).

(** The loop of [executeMultipleRevocations], with [results] so far. *)
Fixpoint revocationLoop (w : World) (smartAccount : string)
  (revocations : list Revocation)
  (delegation : DelegationRegistry.DelegationRecord)
  (results : list string) : Eff (list string) :=
  match revocations with
  | [] => ret results
  | r :: rest =>
    results' <-
      try_catch
        (txHash <- revokeApproval w smartAccount (token r) (spender r) delegation ;;
         ret (results ++ [txHash]))
        (fun error =>
           emit (ConsoleError ("Failed to revoke " ++ token r ++ ":")%string error) ;;
           ret results) ;;
    revocationLoop w smartAccount rest delegation results'
  end.

Definition executeMultipleRevocations (w : World) (smartAccount : string)
  (revocations : list Revocation)
  (delegation : DelegationRegistry.DelegationRecord) : Eff (list string) :=
  revocationLoop w smartAccount revocations delegation [].

End Executor.

(** ** agent/monitor.ts *)

Module Monitor.

Definition isRevoke (k : ActionKind) : bool :=
  match k with revoke => true | _ => false end.

(** The [token] and [spender] fields of a fetched approval. *)
Definition approvalToken (app : TokenApprovalData) : string := token app.
Definition approvalSpender (app : TokenApprovalData) : string := spender app.

(** The object literal [{ token, spender }] built from an action: its
    spender is undefined when no fetched approval has the action's token. *)
Record Candidate : Type := mkCandidate {
  token : string;
  spender : option string
}.

(** [approvals.find(app => app.token === a.target)?.spender] *)
Definition resolveSpender (approvals : list TokenApprovalData) (a : RuleResult)
  : option string :=
  option_map approvalSpender
    (find (fun app => approvalToken app =? target a) approvals).

(** The [as Address] cast of a candidate that passed [filter(r => r.spender)]. *)
Definition asRevocation (c : Candidate) : Executor.Revocation :=
  {| Executor.token := token c;
     Executor.spender := match spender c with Some s => s | None => "" end |}.

(** [actions.filter(...).map(...).filter(r => r.spender)] of [checkWallet]. *)
Definition buildRevocations (approvals : list TokenApprovalData)
  (actions : list RuleResult) : list Executor.Revocation :=
  map asRevocation
    (filter (fun r => truthy_opt (spender r))
       (map (fun a => {| token := target a;
                         spender := resolveSpender approvals a |})
          (filter (fun a => isRevoke (action a)) actions))).

Definition checkWallet (w : World) (walletAddress : string)
  (delegation : DelegationRegistry.DelegationRecord) : Eff unit :=
  emit (ConsoleLog ("Checking wallet: " ++ walletAddress)%string) ;;
  try_catch
    (approvals <- getAllApprovals w walletAddress ;;
     let actions := evaluateAllApprovals (Date_now w) approvals in
     if (length actions =? 0)%nat then
       emit (ConsoleLog ("No actions needed for " ++ walletAddress)%string)
     else
       emit (ConsoleLog ("Found " ++ showNat (length actions) ++ " actions for "
                         ++ walletAddress)%string) ;;
       executor <- Executor.getExecutor w ;;
       let revocations := buildRevocations approvals actions in
       if (0 <? length revocations)%nat then
         txHashes <- Executor.executeMultipleRevocations w walletAddress
                       revocations delegation ;;
         emit (ConsoleLog ("Executed " ++ showNat (length txHashes)
                           ++ " revocations for " ++ walletAddress)%string)
       else ret tt)
    (fun error =>
       emit (ConsoleError ("Error checking wallet " ++ walletAddress ++ ":")%string
                          error)).

Definition checkAllWallets (w : World) (delegations : DelegationRegistry.Delegations)
  : Eff unit :=
  emit (ConsoleLog "Checking all wallets...") ;;
  try_catch
    (executor <- Executor.getExecutor w ;;
     agentAddress <-
       match AGENT_ADDRESS w with
       | Some a => if truthy a then ret a else throw "AGENT_ADDRESS not set"
       | None => throw "AGENT_ADDRESS not set"
       end ;;
     active <- DelegationRegistry.getActiveDelegations delegations agentAddress ;;
     forEach active
       (fun delegation =>
          checkWallet w (DelegationRegistry.delegator delegation) delegation))
    (fun error => emit (ConsoleError "Error checking wallets:" error)).

(** *** The scheduling of cycles

    [WalletMonitor] holds one flag, [isRunning]. [start] registers a cron
    task whose callback calls [checkAllWallets], and calls
    [checkAllWallets] once itself without awaiting it. A cycle is in flight
    from the call of [checkAllWallets] until its promise settles; between
    the two it is suspended at an [await] and the event loop may run a
    cron callback. The state below counts the cron tasks registered (the
    task returned by [cron.schedule] is not kept, so none is ever
    cancelled) and the cycles in flight. *)

Record Scheduler : Type := mkScheduler {
  isRunning : bool;
  cronTasks : nat;
  inFlight : nat;
  cyclesStarted : nat
}.

Definition initial : Scheduler :=
  {| isRunning := false; cronTasks := 0; inFlight := 0; cyclesStarted := 0 |}.

Definition start (s : Scheduler) : Scheduler :=
  if isRunning s then s
  else {| isRunning := true;
          cronTasks := S (cronTasks s);
          inFlight := S (inFlight s);
          cyclesStarted := S (cyclesStarted s) |}.

Definition stop (s : Scheduler) : Scheduler :=
  {| isRunning := false; cronTasks := cronTasks s;
     inFlight := inFlight s; cyclesStarted := cyclesStarted s |}.

(** The five-minute boundary: every registered callback runs
    [await this.checkAllWallets()]. *)
Definition cronTick (s : Scheduler) : Scheduler :=
  {| isRunning := isRunning s; cronTasks := cronTasks s;
     inFlight := inFlight s + cronTasks s;
     cyclesStarted := cyclesStarted s + cronTasks s |}.

(** The promise of one cycle in flight settles. *)
Definition cycleSettles (s : Scheduler) : Scheduler :=
  {| isRunning := isRunning s; cronTasks := cronTasks s;
     inFlight := pred (inFlight s); cyclesStarted := cyclesStarted s |}.

Inductive stimulus : Type := CallStart | CallStop | CronTick | CycleSettles.

Definition step (s : Scheduler) (e : stimulus) : Scheduler :=
  match e with
  | CallStart => start s
  | CallStop => stop s
  | CronTick => cronTick s
  | CycleSettles => cycleSettles s
  end.

Definition run (es : list stimulus) (s : Scheduler) : Scheduler :=
  fold_left step es s.

End Monitor.

(** ** services/envio.ts, wallet health *)

Record WalletHealthData : Type := mkWalletHealthData {
  walletAddress : string;
  healthScore : Z;
  riskyApprovals : Z;
  spamTokens : Z;
  dustTokenCount : Z;
  lastUpdated : string
}.

(** [getWalletHealth]. [healthIndexer] is the indexer's answer to the
    GetWalletHealth request for an address: the [WalletHealth] array of the
    response, or the thrown error. [data.WalletHealth[0] || null] is the
    first row, or null when there is none. *)
Definition getWalletHealth (healthIndexer : string -> outcome (list WalletHealthData))
  (address : string) : Eff (option WalletHealthData) :=
  try_catch
    (emit (IndexerRequest "GetWalletHealth" (toLowerCase address)) ;;
     data <- lift (healthIndexer (toLowerCase address)) ;;
     ret (hd_error data))
    (fun error =>
       emit (ConsoleError "Error fetching wallet health:" error) ;;
       ret None).

(** [Number.prototype.toString] of an integer inside a template string. *)
Definition showZ (z : Z) : string := NilZero.string_of_int (Z.to_int z).

(** [BigInt.prototype.toString] and [Number.prototype.toString] of a
    non-negative integer. *)
Definition showN (n : N) : string := NilZero.string_of_uint (N.to_uint n).

(** ** index.ts: the HTTP routes of the agent service *)

Module Server.

Inductive Body : Type :=
| JsonError (error : string)
| JsonHealth (health : WalletHealthData)
| JsonApprovals (approvals : list TokenApprovalData)
| JsonRegistered (success : bool) (delegation : DelegationRegistry.DelegationRecord)
| JsonDelegations (delegations : list DelegationRegistry.DelegationRecord).

Record Response : Type := mkResponse {
  status : nat;
  body : Body
}.

(** [res.json(b)] answers with status 200, [res.status(n).json(b)] with n. *)
Definition json (b : Body) : Response := {| status := 200; body := b |}.
Definition statusJson (n : nat) (b : Body) : Response := {| status := n; body := b |}.

(** GET /api/wallet/:address/health *)
Definition healthRoute (healthIndexer : string -> outcome (list WalletHealthData))
  (address : string) : Eff Response :=
  try_catch
    (health <- getWalletHealth healthIndexer address ;;
     match health with
     | None => ret (statusJson 404 (JsonError "Wallet health not found"))
     | Some h => ret (json (JsonHealth h))
     end)
    (fun error =>
       emit (ConsoleError "Error fetching wallet health:" error) ;;
       ret (statusJson 500 (JsonError "Internal server error"))).

(** GET /api/wallet/:address/approvals/risky *)
Definition riskyApprovalsRoute (w : World) (address : string) : Eff Response :=
  try_catch
    (approvals <- getRiskyApprovals w address ;;
     ret (json (JsonApprovals approvals)))
    (fun error =>
       emit (ConsoleError "Error fetching risky approvals:" error) ;;
       ret (statusJson 500 (JsonError "Internal server error"))).

(** GET /api/wallet/:address/approvals *)
Definition approvalsRoute (w : World) (address : string) : Eff Response :=
  try_catch
    (approvals <- getAllApprovals w address ;;
     ret (json (JsonApprovals approvals)))
    (fun error =>
       emit (ConsoleError "Error fetching approvals:" error) ;;
       ret (statusJson 500 (JsonError "Internal server error"))).

(** The body of POST /api/delegation/register. *)
Record RegisterBody : Type := mkRegisterBody {
  delegator : string;
  delegate : string;
  scope : DelegationRegistry.Scope
}.

(** The delegation the register route builds; [now] is [Date.now()]. *)
Definition newDelegation (now : Z) (b : RegisterBody)
  : DelegationRegistry.DelegationRecord :=
  {| DelegationRegistry.id :=
       (delegator b ++ "-" ++ delegate b ++ "-" ++ showZ now)%string;
     DelegationRegistry.delegator := delegator b;
     DelegationRegistry.delegate := delegate b;
     DelegationRegistry.scope := scope b;
     DelegationRegistry.createdAt := now;
     DelegationRegistry.isActive := true |}.

(** POST /api/delegation/register: the response and the registry after it. *)
Definition registerRoute (delegations : DelegationRegistry.Delegations) (now : Z)
  (b : RegisterBody) : Eff (Response * DelegationRegistry.Delegations) :=
  try_catch
    (let delegation := newDelegation now b in
     delegations' <- DelegationRegistry.register delegations delegation ;;
     ret (json (JsonRegistered true delegation), delegations'))
    (fun error =>
       emit (ConsoleError "Error registering delegation:" error) ;;
       ret (statusJson 500 (JsonError "Internal server error"), delegations)).

(** GET /api/delegation/:address *)
Definition delegationsRoute (delegations : DelegationRegistry.Delegations)
  (address : string) : Eff Response :=
  try_catch
    (found <- DelegationRegistry.getDelegationsForWallet delegations address ;;
     ret (json (JsonDelegations found)))
    (fun error =>
       emit (ConsoleError "Error fetching delegations:" error) ;;
       ret (statusJson 500 (JsonError "Internal server error"))).

End Server.

(** ** handlers/erc20Handler.ts *)

Module Erc20Handler.

Definition UNLIMITED_APPROVAL : string :=
  "115792089237316195423570985008687907853269984665640564039457584007913129639935".

Definition checkIfRisky (amount' : string) (timestamp' : N) : bool :=
  amount' =? UNLIMITED_APPROVAL.

Record TokenApproval : Type := mkTokenApproval {
  id : string;
  owner : string;
  spender : string;
  token : string;
  amount : string;
  timestamp : N;
  blockNumber : N;
  transactionHash : string;
  isRisky : bool;
  riskReason : option string;
  status : string
}.

(** The entity [handleApproval] builds from an Approval event:
    [event.params] is [{ owner, spender, value }], [address] the emitting
    token contract. *)
Definition approvalEntity (owner' spender' : string) (value : N) (address : string)
  (blockNumber' : N) (transactionHash' : string) (timestamp' logIndex : N)
  : TokenApproval :=
  let isRisky' := checkIfRisky (showN value) timestamp' in
  {| id := (transactionHash' ++ "-" ++ showN logIndex)%string;
     owner := toLowerCase owner';
     spender := toLowerCase spender';
     token := toLowerCase address;
     amount := showN value;
     timestamp := timestamp';
     blockNumber := blockNumber';
     transactionHash := transactionHash';
     isRisky := isRisky';
     riskReason := if isRisky' then Some "Unlimited approval detected" else None;
     status := if showN value =? "0" then "REVOKED" else "ACTIVE" |}.

Record WalletHealth : Type := mkWalletHealth {
  healthId : string;
  walletAddress : string;
  healthScore : Z;
  riskyApprovals : nat;
  spamTokens : nat;
  dustTokenCount : nat;
  lastUpdated : Z
}.

(** The entity [updateWalletHealth] builds from the active approvals of a
    wallet ([TokenApproval.getAll] with owner and status ACTIVE); [now] is
    [Date.now()]. *)
Definition walletHealthEntity (walletAddress' : string)
  (approvals : list TokenApproval) (now : Z) : WalletHealth :=
  let riskyApprovals' := length (filter isRisky approvals) in
  let healthScore' := Z.max 0 (100 - Z.of_nat riskyApprovals' * 10) in
  {| healthId := walletAddress';
     walletAddress := walletAddress';
     healthScore := healthScore';
     riskyApprovals := riskyApprovals';
     spamTokens := 0;
     dustTokenCount := 0;
     lastUpdated := now |}.

End Erc20Handler.

(** The fields of a stored approval that the GetAllApprovals and
    GetRiskyApprovals queries of services/envio.ts select. *)
Definition selectApproval (e : Erc20Handler.TokenApproval) : TokenApprovalData :=
  {| id := Erc20Handler.id e;
     owner := Erc20Handler.owner e;
     spender := Erc20Handler.spender e;
     token := Erc20Handler.token e;
     amount := Erc20Handler.amount e;
     isRisky := Erc20Handler.isRisky e;
     status := Erc20Handler.status e |}.

(** ** EventHandlers.js: the indexer's handlers *)

Module EventHandlers.

(** Placeholder of the source: no spender is risky. *)
Definition isSpenderRisky (spender' : string) : bool := false.

Definition isUnlimited (value : N) : bool := (UNLIMITED_THRESHOLD <=? value)%N.

Definition isRisky (value : N) (spender' : string) : bool :=
  isUnlimited value || isSpenderRisky spender'.

Definition status (value : N) : string :=
  if (0 <? value)%N then "ACTIVE" else "REVOKED".

(** [revokedAt]: the block timestamp when the value is zero. *)
Definition revokedAt (value blockTimestamp : N) : option N :=
  if (value =? 0)%N then Some blockTimestamp else None.

(** What [updateWalletHealth] reads of a stored approval. *)
Record ApprovalRow : Type := mkApprovalRow {
  rowStatus : string;
  rowIsRisky : bool
}.

Record WalletHealth : Type := mkWalletHealth {
  activeApprovalsCount : nat;
  riskyApprovalsCount : nat;
  healthScore : Z
}.

(** [updateWalletHealth]: nothing is written when the lookup gives no
    array; otherwise the counts and the score clamped to 0..100. *)
Definition updateWalletHealth (approvals : option (list ApprovalRow))
  : option WalletHealth :=
  match approvals with
  | None => None
  | Some approvals =>
    let activeApprovals := filter (fun a => rowStatus a =? "ACTIVE") approvals in
    let activeCount := length activeApprovals in
    let riskyCount := length (filter rowIsRisky activeApprovals) in
    let healthScore0 := 100%Z in
    let healthScore1 := (healthScore0 - Z.of_nat riskyCount * 10)%Z in
    let healthScore2 := (healthScore1 - Z.of_nat activeCount * 2)%Z in
    Some {| activeApprovalsCount := activeCount;
            riskyApprovalsCount := riskyCount;
            healthScore := Z.max 0 (Z.min 100 healthScore2) |}
  end.

End EventHandlers.

(** ** Histories of the registry, and counting indexer requests *)

(** The two mutating calls of the registry, and a registry after a sequence
    of them. *)
Inductive RegistryOp : Type :=
| OpRegister (delegation : DelegationRegistry.DelegationRecord)
| OpRevoke (delegationId : string).

Definition applyOp (m : DelegationRegistry.Delegations) (op : RegistryOp)
  : DelegationRegistry.Delegations :=
  match op with
  | OpRegister d => DelegationRegistry.after (DelegationRegistry.register m d) m
  | OpRevoke k => DelegationRegistry.after (DelegationRegistry.revoke m k) m
  end.

Definition applyOps (ops : list RegistryOp) (m : DelegationRegistry.Delegations)
  : DelegationRegistry.Delegations :=
  fold_left applyOp ops m.

Definition isIndexerRequest (ev : event) : bool :=
  match ev with IndexerRequest _ _ => true | _ => false end.

(** The value a computation returned, or [default] if it threw. *)
Definition returned {A} (default : A) (m : Eff A) : A :=
  match result m with
  | Returned a => a
  | Thrown _ => default
  end.

(** ** Sample data *)

(** The approvals of the repository's rule-engine tests. *)
Definition unlimitedApproval : TokenApprovalData :=
  {| id := "1"; owner := "0x123"; spender := "0x456"; token := "0x789";
     amount := UNLIMITED; isRisky := true; status := "ACTIVE" |}.

Definition limitedApproval : TokenApprovalData :=
  {| id := "2"; owner := "0x123"; spender := "0x457"; token := "0x790";
     amount := "1000000"; isRisky := false; status := "ACTIVE" |}.

Definition riskyApproval : TokenApprovalData :=
  {| id := "1"; owner := "0x123"; spender := "0x456"; token := "0x789";
     amount := "1000000"; isRisky := true; status := "ACTIVE" |}.

(** An approval of 2^256 - 2, one unit under the maximum. *)
Definition nearMaxApproval (risky : bool) : TokenApprovalData :=
  {| id := "3"; owner := "0x123"; spender := "0x456"; token := "0x789";
     amount :=
       "115792089237316195423570985008687907853269984665640564039457584007913129639934";
     isRisky := risky; status := "ACTIVE" |}.

(** Delegations. [blankDelegation] has an empty delegator, an empty delegate
    and an empty scope. *)
Definition noScope : DelegationRegistry.Scope :=
  {| DelegationRegistry.type := "functionCall";
     DelegationRegistry.targets := [];
     DelegationRegistry.selectors := [] |}.

Definition mkGrant (id' delegator' delegate' : string) : DelegationRegistry.DelegationRecord :=
  {| DelegationRegistry.id := id';
     DelegationRegistry.delegator := delegator';
     DelegationRegistry.delegate := delegate';
     DelegationRegistry.scope := noScope;
     DelegationRegistry.createdAt := 0;
     DelegationRegistry.isActive := true |}.

Definition blankDelegation : DelegationRegistry.DelegationRecord :=
  {| DelegationRegistry.id := "d0";
     DelegationRegistry.delegator := "";
     DelegationRegistry.delegate := "";
     DelegationRegistry.scope :=
       {| DelegationRegistry.type := "";
          DelegationRegistry.targets := [];
          DelegationRegistry.selectors := [] |};
     DelegationRegistry.createdAt := 0;
     DelegationRegistry.isActive := true |}.

Definition twoGrants : DelegationRegistry.Delegations :=
  [("d1", mkGrant "d1" "0xwallet1" "0xagent");
   ("d2", mkGrant "d2" "0xwallet2" "0xagent")].

(** Lower-case hexadecimal strings: [0x] and [n] digits of 0-9a-f. An
    address is 40 digits, a private key 64. *)
Definition isLowerHexDigit (c : ascii) : bool :=
  let n := nat_of_ascii c in
  ((48 <=? n)%nat && (n <=? 57)%nat) || ((97 <=? n)%nat && (n <=? 102)%nat).

Fixpoint allLowerHex (s : string) : bool :=
  match s with
  | EmptyString => true
  | String c s' => isLowerHexDigit c && allLowerHex s'
  end.

Definition isLowerHex (n : nat) (s : string) : bool :=
  (substring 0 2 s =? "0x") && (String.length s =? n + 2)%nat
  && allLowerHex (substring 2 n s).

(** The agent of the sample environment: a well-known development key and
    the address of its account. *)
Definition sampleKey : string :=
  "0xac0974bec39a17e36ba4a6b4d238ff944bacb478cbed5efcae784d7bf4f2ff80".
Definition sampleAccount : string := "0xf39Fd6e51aad88F6F4ce6aB8827279cffFb92266".

(** The calldata of [approve(spender, 0)]: the selector, the address padded
    to 32 bytes, and 32 zero bytes. *)
Definition approveZeroCalldata (spender' : string) : string :=
  ("0x095ea7b3" ++ repeatString "0" 24 ++ substring 2 40 spender'
   ++ repeatString "0" 64)%string.

(** A world in which the environment is configured with [sampleKey] and the
    indexer gives [answer] to every request. viem is represented on the
    inputs this environment produces: [privateKeyToAccount] knows the
    account of [sampleKey], the only key it is ever given, and rejects any
    other string; [encodeFunctionData] encodes a lower-case 20-byte address,
    which is how the indexer stores addresses, and rejects any other string
    as an invalid address. *)
Definition sampleWorld (answer : outcome (list TokenApprovalData)) : World :=
  {| AGENT_ADDRESS := Some "0xagent";
     AGENT_PRIVATE_KEY := Some sampleKey;
     privateKeyToAccount := fun key =>
       if key =? sampleKey then Returned sampleAccount
       else Thrown "invalid private key";
     encodeFunctionData := fun spender' =>
       if isLowerHex 40 spender' then Returned (approveZeroCalldata spender')
       else Thrown "InvalidAddressError";
     indexer := fun _ _ => answer;
     Date_now := fun _ => 0%Z |}.

(** Well-formed addresses for the runs below: a wallet, two tokens and
    three spenders. *)
Definition sampleWallet : string := "0xcccccccccccccccccccccccccccccccccccccccc".
Definition sampleToken : string := "0xaaaaaaaaaaaaaaaaaaaaaaaaaaaaaaaaaaaaaaaa".
Definition otherToken : string := "0xbbbbbbbbbbbbbbbbbbbbbbbbbbbbbbbbbbbbbbbb".
Definition firstSpender : string := "0x1111111111111111111111111111111111111111".

(** A delegation of [sampleWallet] to the agent whose scope lists
    [otherToken] only. *)
Definition scopedGrant : DelegationRegistry.DelegationRecord :=
  {| DelegationRegistry.id := "d1";
     DelegationRegistry.delegator := sampleWallet;
     DelegationRegistry.delegate := "0xagent";
     DelegationRegistry.scope :=
       {| DelegationRegistry.type := "functionCall";
          DelegationRegistry.targets := [otherToken];
          DelegationRegistry.selectors := ["0x095ea7b3"] |};
     DelegationRegistry.createdAt := 0;
     DelegationRegistry.isActive := true |}.

(** The placeholder [revokeApproval] returns: 0x and 64 zeros. *)
Definition placeholderHash : string := ("0x" ++ repeatString "0" 64)%string.

(** Whether viem can encode the calldata of a revocation. *)
Definition encodes (w : World) (r : Executor.Revocation) : bool :=
  match encodeFunctionData w (Executor.spender r) with
  | Returned _ => true
  | Thrown _ => false
  end.

(** What one pass of the loop of [executeMultipleRevocations] writes. *)
Definition revocationEvents (w : World) (smartAccount : string)
  (r : Executor.Revocation) : list event :=
  match encodeFunctionData w (Executor.spender r) with
  | Returned _ =>
    [ConsoleLog ("Would revoke approval for " ++ Executor.token r
                 ++ " on " ++ smartAccount)%string;
     ConsoleLog
       "Delegation feature will be available once MetaMask Smart Accounts are set up"]
  | Thrown e =>
    [ConsoleError "Error revoking approval:" e;
     ConsoleError ("Failed to revoke " ++ Executor.token r ++ ":")%string e]
  end.

Definition sampleRevocation : Executor.Revocation :=
  {| Executor.token := sampleToken; Executor.spender := firstSpender |}.

(** The pieces of one run of [checkWallet]: the approvals it works on (the
    indexer's answer, or nothing when the request failed), what the fetch
    writes, the revocations it hands to the executor, and what it writes
    after the fetch. *)
Definition fetched (w : World) (wallet : string) : list TokenApprovalData :=
  match indexer w "GetAllApprovals" (toLowerCase wallet) with
  | Returned l => l
  | Thrown _ => []
  end.

Definition fetchEvents (w : World) (wallet : string) : list event :=
  IndexerRequest "GetAllApprovals" (toLowerCase wallet) ::
  match indexer w "GetAllApprovals" (toLowerCase wallet) with
  | Returned _ => []
  | Thrown e => [ConsoleError "Error fetching approvals:" e]
  end.

Definition proposedRevocations (w : World) (wallet : string) : list Executor.Revocation :=
  Monitor.buildRevocations (fetched w wallet)
    (evaluateAllApprovals (Date_now w) (fetched w wallet)).

Definition executionEvents (w : World) (wallet : string) : list event :=
  let actions := evaluateAllApprovals (Date_now w) (fetched w wallet) in
  if (length actions =? 0)%nat then
    [ConsoleLog ("No actions needed for " ++ wallet)%string]
  else
    ConsoleLog ("Found " ++ showNat (length actions) ++ " actions for " ++ wallet)%string ::
    match result (Executor.getExecutor w) with
    | Thrown e => [ConsoleError ("Error checking wallet " ++ wallet ++ ":")%string e]
    | Returned _ =>
      let revs := proposedRevocations w wallet in
      if (0 <? length revs)%nat then
        flat_map (revocationEvents w wallet) revs ++
        [ConsoleLog ("Executed " ++ showNat (length (filter (encodes w) revs))
                     ++ " revocations for " ++ wallet)%string]
      else []
    end.

(** The revocation [checkWallet] builds for one fetched approval: none when
    no rule matches it; otherwise its token with the spender of the first
    fetched approval of that token, unless that spender is empty. *)
Definition revocationFor (approvals : list TokenApprovalData) (a : TokenApprovalData)
  : list Executor.Revocation :=
  match evaluateApproval 0 a with
  | None => []
  | Some _ =>
    match find (fun app => token app =? token a) approvals with
    | Some first =>
      if truthy (spender first)
      then [{| Executor.token := token a; Executor.spender := spender first |}]
      else []
    | None => []
    end
  end.

(** Approvals of [sampleToken] by [sampleWallet]: two unlimited ones, to
    [firstSpender] and to [secondSpender], and a limited, non-risky one to
    [earlierSpender]. *)
Definition approvalToFirst : TokenApprovalData :=
  {| id := "a1"; owner := sampleWallet; spender := firstSpender;
     token := sampleToken; amount := UNLIMITED; isRisky := true;
     status := "ACTIVE" |}.



(** * Properties *)

(** ** Rule engine *)

Lemma evaluateApproval_clock (t t' : Z) (a : TokenApprovalData) :
  evaluateApproval t a = evaluateApproval t' a.
Proof. reflexivity. Qed.

Lemma mapi_from_evaluate (clock : nat -> Z) (l : list TokenApprovalData) (i : nat) :
  mapi_from i (fun j a => evaluateApproval (clock j) a) l = map (evaluateApproval 0) l.
Proof.
  revert i; induction l as [|a l IH]; intro i; simpl; [reflexivity|].
  now rewrite IH.
Qed.

Lemma narrow_filter_map {A B} (f : A -> option B) (l : list A) :
  narrow (filter notNull (map f l)) = narrow (map f l).
Proof.
  induction l as [|a l IH]; simpl; [reflexivity|].
  destruct (f a); simpl; now rewrite IH.
Qed.

Lemma evaluateAllApprovals_spec (clock : nat -> Z) (l : list TokenApprovalData) :
  evaluateAllApprovals clock l = evaluateAll_spec (evaluateApproval 0) l.
Proof.
  unfold evaluateAllApprovals, mapi.
  rewrite mapi_from_evaluate, narrow_filter_map.
  induction l as [|a l IH]; simpl; [reflexivity|].
  destruct (evaluateApproval 0 a); simpl; now rewrite IH.
Qed.

Lemma evaluateApproval_target (t : Z) (a : TokenApprovalData) (r : RuleResult) :
  evaluateApproval t a = Some r -> target r = token a /\ action r = revoke.
Proof.
  unfold evaluateApproval, checkUnlimitedApproval, checkRiskyApproval, checkStaleApproval.
  destruct (amount a =? UNLIMITED); [intros [= <-]; now split|].
  destruct (isRisky a); [intros [= <-]; now split|discriminate].
Qed.

(** The rule-engine test of the repository: of an unlimited and a limited,
    non-risky approval, only the first gets an action. *)
Example evaluateAll_test :
  evaluateAllApprovals (fun _ => 0%Z) [unlimitedApproval; limitedApproval]
  = [unlimitedAction unlimitedApproval].
Proof. reflexivity. Qed.

(** C3 (as amended): the unlimited rule is an exact comparison of the amount
    string with the decimal string of 2^256 - 1. An approval with exactly that
    amount is revoked with the reason of the unlimited rule whatever its
    [isRisky] flag; for any other amount no result of [evaluate] carries
    that reason. *)
Theorem unlimited_rule_exact (now : Z) (a : TokenApprovalData) :
  (amount a = UNLIMITED -> evaluateApproval now a = Some (unlimitedAction a)) /\
  (amount a <> UNLIMITED ->
     forall r, evaluateApproval now a = Some r ->
               reason r <> "Unlimited approval detected") /\
  (forall r, evaluateApproval now a = Some r ->
             (reason r = "Unlimited approval detected" <-> amount a = UNLIMITED)) /\
  amountValue UNLIMITED = Some MAX_UINT256.
Proof.
  assert (Hother : amount a <> UNLIMITED ->
            forall r, evaluateApproval now a = Some r ->
                      reason r <> "Unlimited approval detected").
  { intros Hne r. apply String.eqb_neq in Hne.
    unfold evaluateApproval, checkUnlimitedApproval, checkRiskyApproval,
      checkStaleApproval.
    rewrite Hne. destruct (isRisky a); [|discriminate].
    intros [= <-]. cbn [reason]. discriminate. }
  assert (Hexact : amount a = UNLIMITED ->
            evaluateApproval now a = Some (unlimitedAction a)).
  { intros Heq. unfold evaluateApproval, checkUnlimitedApproval.
    now rewrite Heq. }
  split; [exact Hexact|]. split; [exact Hother|]. split.
  - intros r Hr. split.
    + intros Hreason. destruct (String.eqb_spec (amount a) UNLIMITED) as [E|E];
        [exact E|]. exfalso. exact (Hother E r Hr Hreason).
    + intros Heq. rewrite (Hexact Heq) in Hr. now injection Hr as <-.
  - vm_compute. reflexivity.
Qed.

(** C3 (counterexample): 2^256 - 2 is far above the indexer's threshold for an
    unlimited approval, yet [evaluate] proposes nothing for it when the
    spender is not risky, and gives the reason of the risky rule when it is. *)
Lemma unlimited_threshold_counterexample :
  amountValue (amount (nearMaxApproval false)) = Some (MAX_UINT256 - 1)%N /\
  (UNLIMITED_THRESHOLD <= MAX_UINT256 - 1)%N /\
  evaluateApproval 0 (nearMaxApproval false) = None /\
  evaluateApproval 0 (nearMaxApproval true) = Some (riskyAction (nearMaxApproval true)).
Proof.
  split; [|split; [|split]]; vm_compute; try reflexivity.
  discriminate.
Qed.

(** C8: [evaluateAllApprovals] is the specification's [evaluateAll] (map
    [evaluate] over the list, drop the nulls, keep the input order); the k-th
    action it returns is for the k-th approval that has one; and its result
    does not depend on the clock read during evaluation, so two calls on the
    same list return the same list. *)
Theorem evaluateAll_map_filter (clock clock' : nat -> Z) (l : list TokenApprovalData) :
  evaluateAllApprovals clock l = evaluateAll_spec (evaluateApproval 0) l /\
  map target (evaluateAllApprovals clock l)
    = map token (filter (fun a => notNull (evaluateApproval 0 a)) l) /\
  evaluateAllApprovals clock l = evaluateAllApprovals clock' l.
Proof.
  split; [|split].
  - apply evaluateAllApprovals_spec.
  - rewrite evaluateAllApprovals_spec.
    induction l as [|a l IH]; simpl; [reflexivity|].
    destruct (evaluateApproval 0 a) as [r|] eqn:E; simpl; [|exact IH].
    rewrite IH. f_equal. now apply evaluateApproval_target in E.
  - now rewrite !evaluateAllApprovals_spec.
Qed.

(** C9: a risky approval whose amount is not the unlimited one is revoked
    with the reason of the risky rule; this covers every amount numerically
    below any threshold up to 2^256 - 1. The risky rule comes second: when
    the unlimited rule matches, its result is returned. *)
Theorem risky_rule (now : Z) (a : TokenApprovalData) (Hrisky : isRisky a = true) :
  (amount a <> UNLIMITED -> evaluateApproval now a = Some (riskyAction a)) /\
  (forall v threshold : N,
      amountValue (amount a) = Some v -> (v < threshold)%N ->
      (threshold <= MAX_UINT256)%N ->
      evaluateApproval now a = Some (riskyAction a)) /\
  (amount a = UNLIMITED -> evaluateApproval now a = Some (unlimitedAction a)) /\
  (checkUnlimitedApproval a = None -> evaluateApproval now a = checkRiskyApproval a).
Proof.
  assert (H1 : amount a <> UNLIMITED -> evaluateApproval now a = Some (riskyAction a)).
  { intros Hne. apply String.eqb_neq in Hne.
    unfold evaluateApproval, checkUnlimitedApproval, checkRiskyApproval.
    now rewrite Hne, Hrisky. }
  split; [|split; [|split]].
  - exact H1.
  - intros v threshold Hv Hlt Hle. apply H1. intros Heq.
    rewrite Heq in Hv.
    assert (Hmax : amountValue UNLIMITED = Some MAX_UINT256) by (vm_compute; reflexivity).
    rewrite Hmax in Hv. injection Hv as <-. lia.
  - intros Heq. unfold evaluateApproval, checkUnlimitedApproval. now rewrite Heq.
  - intros Hnone. unfold evaluateApproval. rewrite Hnone.
    unfold checkRiskyApproval. now rewrite Hrisky.
Qed.

Lemma risky_rule_witness :
  isRisky riskyApproval = true /\
  evaluateApproval 0 riskyApproval = Some (riskyAction riskyApproval).
Proof.
  split; [reflexivity|].
  destruct (risky_rule 0 riskyApproval eq_refl) as [H _].
  apply H. unfold UNLIMITED. simpl. discriminate.
Defined.

(** ** Delegation registry *)

Section RegistryFacts.
Import DelegationRegistry.

Lemma Map_get_set_same (k : string) (v : DelegationRecord) (m : Delegations) :
  Map_get k (Map_set k v m) = Some v.
Proof.
  induction m as [|[k' v'] m IH]; simpl.
  - now rewrite String.eqb_refl.
  - destruct (k' =? k) eqn:E; simpl; rewrite E; [reflexivity|exact IH].
Qed.

Lemma Map_get_set_other (k k' : string) (v : DelegationRecord) (m : Delegations) :
  k' <> k -> Map_get k' (Map_set k v m) = Map_get k' m.
Proof.
  intros Hne. induction m as [|[k0 v0] m IH]; simpl.
  - destruct (k =? k') eqn:E; [|reflexivity].
    apply String.eqb_eq in E. congruence.
  - destruct (k0 =? k) eqn:E; simpl.
    + apply String.eqb_eq in E. subst k0.
      destruct (k =? k') eqn:E'; [|reflexivity].
      apply String.eqb_eq in E'. congruence.
    + now rewrite IH.
Qed.

Lemma Map_get_In (k : string) (v : DelegationRecord) (m : Delegations) :
  Map_get k m = Some v -> In (k, v) m.
Proof.
  induction m as [|[k0 v0] m IH]; simpl; [discriminate|].
  destruct (k0 =? k) eqn:E.
  - apply String.eqb_eq in E. intros [= ->]. left. now subst.
  - intros H. right. now apply IH.
Qed.

Lemma In_Map_get (k : string) (v : DelegationRecord) (m : Delegations) :
  In (k, v) m -> Map_get k m <> None.
Proof.
  induction m as [|[k0 v0] m IH]; simpl; [tauto|].
  intros [[= -> ->]|Hin].
  - now rewrite String.eqb_refl.
  - destruct (k0 =? k); [discriminate|now apply IH].
Qed.

Lemma Map_set_present_keys (k : string) (v v0 : DelegationRecord) (m : Delegations) :
  Map_get k m = Some v0 -> map fst (Map_set k v m) = map fst m.
Proof.
  induction m as [|[k' v'] m IH]; simpl; [discriminate|].
  destruct (k' =? k) eqn:E; simpl; [reflexivity|].
  intros H. now rewrite IH.
Qed.

Lemma Map_set_absent_keys (k : string) (v : DelegationRecord) (m : Delegations) :
  Map_get k m = None -> map fst (Map_set k v m) = map fst m ++ [k].
Proof.
  induction m as [|[k' v'] m IH]; simpl; [reflexivity|].
  destruct (k' =? k) eqn:E; simpl; [discriminate|].
  intros H. now rewrite IH.
Qed.

Lemma Map_set_entries (k k' : string) (v d : DelegationRecord) (m : Delegations) :
  NoDup (map fst m) ->
  In (k', d) (Map_set k v m) -> (k' = k /\ d = v) \/ (k' <> k /\ In (k', d) m).
Proof.
  induction m as [|[k0 v0] m IH]; simpl; intros Hnd.
  - intros [[= <- <-]|[]]. now left.
  - inversion Hnd as [|? ? Hnotin Hnd']; subst.
    destruct (k0 =? k) eqn:E; simpl.
    + apply String.eqb_eq in E. subst k0.
      intros [[= <- <-]|Hin]; [now left|].
      right. split; [|now right].
      intros ->. apply Hnotin. now apply (in_map fst) in Hin.
    + apply String.eqb_neq in E.
      intros [[= <- <-]|Hin].
      * right. split; [exact E|now left].
      * destruct (IH Hnd' Hin) as [H|[H1 H2]]; [now left|].
        right. split; [exact H1|now right].
Qed.

Lemma Map_set_twice (k : string) (v : DelegationRecord) (m : Delegations) :
  Map_set k v (Map_set k v m) = Map_set k v m.
Proof.
  induction m as [|[k' v'] m IH]; simpl.
  - now rewrite String.eqb_refl.
  - destruct (k' =? k) eqn:E; simpl; rewrite E; [reflexivity|now rewrite IH].
Qed.

Lemma Map_set_stored (k : string) (v : DelegationRecord) (m : Delegations) :
  Map_get k m = Some v -> Map_set k v m = m.
Proof.
  induction m as [|[k' v'] m IH]; simpl; [discriminate|].
  destruct (k' =? k) eqn:E.
  - now intros [= ->].
  - intros H. now rewrite IH.
Qed.

Lemma deactivate_inactive (d : DelegationRecord) :
  isActive d = false -> deactivate d = d.
Proof. destruct d; simpl; now intros ->. Qed.

Lemma wellFormed_empty : wellFormed empty.
Proof. split; constructor. Qed.

Lemma wellFormed_set (m : Delegations) (v : DelegationRecord) :
  wellFormed m -> wellFormed (Map_set (id v) v m).
Proof.
  intros [Hnd Hk]. split.
  - destruct (Map_get (id v) m) as [v0|] eqn:E.
    + now rewrite (Map_set_present_keys _ _ v0).
    + rewrite Map_set_absent_keys by exact E.
      apply NoDup_app; [exact Hnd|repeat constructor; tauto|].
      intros k Hin [Heq|[]]. subst k.
      apply in_map_iff in Hin as [[k' d] [Hk' Hin]]. simpl in Hk'. subst k'.
      now apply In_Map_get in Hin.
  - apply Forall_forall. intros [k d] Hin.
    destruct (Map_set_entries _ _ _ _ _ Hnd Hin) as [[-> ->]|[_ Hin']];
      [reflexivity|].
    rewrite Forall_forall in Hk. exact (Hk _ Hin').
Qed.

Lemma wellFormed_register (m : Delegations) (d : DelegationRecord) :
  wellFormed m -> wellFormed (after (register m d) m).
Proof. apply wellFormed_set. Qed.

Lemma wellFormed_revoke (m : Delegations) (k : string) :
  wellFormed m -> wellFormed (after (revoke m k) m).
Proof.
  intros Hwf. unfold revoke, after.
  destruct (Map_get k m) as [d|] eqn:E; simpl; [|exact Hwf].
  assert (Hk : k = id d).
  { destruct Hwf as [_ Hk]. rewrite Forall_forall in Hk.
    exact (Hk _ (Map_get_In _ _ _ E)). }
  rewrite Hk. exact (wellFormed_set m (deactivate d) Hwf).
Qed.

Lemma after_revoke (m : Delegations) (k : string) :
  after (revoke m k) m =
  match Map_get k m with
  | Some d => Map_set k (deactivate d) m
  | None => m
  end.
Proof. unfold after, revoke. destruct (Map_get k m); reflexivity. Qed.

End RegistryFacts.

(** C5: in a registry built by [register] and [revoke], [revoke] never
    throws; the list [getActiveDelegations] returns right after it holds no
    delegation with the revoked id; revoking again changes nothing; and
    revoking an unknown or an already revoked id leaves the registry as it
    was. *)
Theorem revoke_visible_and_idempotent
  (m : DelegationRegistry.Delegations) (delegationId delegate' : string)
  (Hwf : DelegationRegistry.wellFormed m) :
  let m' := DelegationRegistry.after (DelegationRegistry.revoke m delegationId) m in
  result (DelegationRegistry.revoke m delegationId) = Returned m' /\
  (exists active,
      DelegationRegistry.getActiveDelegations m' delegate' = ret active /\
      forall d, In d active -> DelegationRegistry.id d <> delegationId) /\
  result (DelegationRegistry.revoke m' delegationId) = Returned m' /\
  (DelegationRegistry.Map_get delegationId m = None -> m' = m) /\
  (forall d, DelegationRegistry.Map_get delegationId m = Some d ->
             DelegationRegistry.isActive d = false -> m' = m) /\
  DelegationRegistry.wellFormed m'.
Proof.
  intros m'.
  assert (Hm' : m' = match DelegationRegistry.Map_get delegationId m with
                     | Some d => DelegationRegistry.Map_set delegationId
                                   (DelegationRegistry.deactivate d) m
                     | None => m
                     end) by apply after_revoke.
  assert (Hwf' : DelegationRegistry.wellFormed m') by now apply wellFormed_revoke.
  assert (Hres : result (DelegationRegistry.revoke m delegationId) = Returned m').
  { unfold m', DelegationRegistry.after, DelegationRegistry.revoke.
    destruct (DelegationRegistry.Map_get delegationId m); reflexivity. }
  clearbody m'.
  split; [exact Hres|]. split; [|split; [|split; [|split]]].
  - eexists. split; [reflexivity|].
    intros d Hin Hid. apply filter_In in Hin as [Hin Hact].
    apply andb_prop in Hact as [_ Hact].
    unfold DelegationRegistry.Map_values in Hin.
    apply in_map_iff in Hin as [[k d'] [Hd Hin]]. cbn [snd] in Hd. subst d'.
    assert (Hk : k = delegationId).
    { destruct Hwf' as [_ Hk]. rewrite Forall_forall in Hk.
      specialize (Hk _ Hin). cbn [fst snd] in Hk. congruence. }
    rewrite Hk in Hin. clear Hk k.
    destruct (DelegationRegistry.Map_get delegationId m) as [d0|] eqn:E.
    + destruct Hwf as [Hnd _]. rewrite Hm' in Hin.
      destruct (Map_set_entries _ _ _ _ _ Hnd Hin) as [[_ Hd]|[Hne _]];
        [rewrite Hd in Hact; discriminate Hact|congruence].
    + rewrite Hm' in Hin. now apply In_Map_get in Hin.
  - unfold DelegationRegistry.revoke.
    destruct (DelegationRegistry.Map_get delegationId m) as [d0|] eqn:E.
    + rewrite Hm', Map_get_set_same.
      change (DelegationRegistry.deactivate (DelegationRegistry.deactivate d0))
        with (DelegationRegistry.deactivate d0).
      rewrite Map_set_twice. reflexivity.
    + rewrite Hm', E. reflexivity.
  - intros E. now rewrite Hm', E.
  - intros d E Hinactive.
    rewrite Hm', E, deactivate_inactive by exact Hinactive.
    now apply Map_set_stored.
  - exact Hwf'.
Qed.

Lemma revoke_visible_and_idempotent_witness :
  DelegationRegistry.wellFormed twoGrants /\
  exists active,
    DelegationRegistry.getActiveDelegations
      (DelegationRegistry.after (DelegationRegistry.revoke twoGrants "d1") twoGrants)
      "0xagent" = ret active /\
    forall d, In d active -> DelegationRegistry.id d <> "d1".
Proof.
  assert (Hwf : DelegationRegistry.wellFormed twoGrants).
  { split.
    - simpl. repeat constructor; simpl; intuition discriminate.
    - repeat constructor. }
  split; [exact Hwf|].
  exact (proj1 (proj2 (revoke_visible_and_idempotent twoGrants "d1" "0xagent" Hwf))).
Defined.

(** C6 (as amended): [register] validates nothing and never throws: whatever
    the record, it is stored under its own [id], replacing a record already
    stored under that id and leaving every other entry as it was. *)
Theorem register_stores_by_id
  (m : DelegationRegistry.Delegations) (d : DelegationRegistry.DelegationRecord) :
  exists m',
    result (DelegationRegistry.register m d) = Returned m' /\
    DelegationRegistry.Map_get (DelegationRegistry.id d) m' = Some d /\
    (forall k, k <> DelegationRegistry.id d ->
               DelegationRegistry.Map_get k m' = DelegationRegistry.Map_get k m).
Proof.
  eexists. split; [reflexivity|]. split.
  - apply Map_get_set_same.
  - intros k Hk. now apply Map_get_set_other.
Qed.

(** C6 (counterexample): a record with empty delegator, empty delegate and an
    empty scope is registered without an error; two grants of one
    (delegator, delegate) pair under different ids are both kept; and a grant
    registered under the id of another pair's grant replaces it. *)
Lemma register_validation_counterexample :
  result (DelegationRegistry.register DelegationRegistry.empty blankDelegation)
    = Returned [("d0", blankDelegation)] /\
  result (DelegationRegistry.register
            [("d1", mkGrant "d1" "0xwallet1" "0xagent")]
            (mkGrant "d3" "0xwallet1" "0xagent"))
    = Returned [("d1", mkGrant "d1" "0xwallet1" "0xagent");
                ("d3", mkGrant "d3" "0xwallet1" "0xagent")] /\
  result (DelegationRegistry.register
            [("d1", mkGrant "d1" "0xwallet1" "0xagent")]
            (mkGrant "d1" "0xwallet2" "0xagent"))
    = Returned [("d1", mkGrant "d1" "0xwallet2" "0xagent")].
Proof. split; [|split]; reflexivity. Qed.

(** ** Transaction executor *)

Lemma authorityCalls_app (t t' : list event) :
  authorityCalls (t ++ t') = authorityCalls t + authorityCalls t'.
Proof. unfold authorityCalls. now rewrite filter_app, length_app. Qed.

Lemma bind_returned {A B} (t : list event) (a : A) (k : A -> Eff B) :
  bind (t, Returned a) k = (t ++ trace (k a), result (k a)).
Proof. unfold bind, trace, result. now destruct (k a). Qed.

Lemma bind_thrown {A B} (t : list event) (e : exn) (k : A -> Eff B) :
  bind (t, Thrown e) k = (t, Thrown e).
Proof. reflexivity. Qed.

Lemma try_catch_thrown {A} (t : list event) (e : exn) (h : exn -> Eff A) :
  try_catch (t, Thrown e) h = (t ++ trace (h e), result (h e)).
Proof. unfold try_catch, trace, result. now destruct (h e). Qed.

Lemma try_catch_returned {A} (t : list event) (a : A) (h : exn -> Eff A) :
  try_catch (t, Returned a) h = (t, Returned a).
Proof. reflexivity. Qed.

Lemma emit_then {B} (ev : event) (k : unit -> Eff B) :
  bind (emit ev) k = (ev :: trace (k tt), result (k tt)).
Proof. unfold emit. now rewrite bind_returned. Qed.

Lemma eff_eta {A} (m : Eff A) : m = (trace m, result m).
Proof. now destruct m. Qed.

Lemma revokeApproval_cases (w : World) (smartAccount tokenAddress spenderAddress : string)
  (d : DelegationRegistry.DelegationRecord) :
  Executor.revokeApproval w smartAccount tokenAddress spenderAddress d =
  match encodeFunctionData w spenderAddress with
  | Returned _ =>
    ([ConsoleLog ("Would revoke approval for " ++ tokenAddress
                  ++ " on " ++ smartAccount)%string;
      ConsoleLog
        "Delegation feature will be available once MetaMask Smart Accounts are set up"],
     Returned placeholderHash)
  | Thrown e => ([ConsoleError "Error revoking approval:" e], Thrown e)
  end.
Proof.
  unfold Executor.revokeApproval.
  destruct (encodeFunctionData w spenderAddress); reflexivity.
Qed.

Lemma revocationLoop_spec (w : World) (smartAccount : string)
  (revocations : list Executor.Revocation) (d : DelegationRegistry.DelegationRecord)
  (results : list string) :
  Executor.revocationLoop w smartAccount revocations d results =
  (flat_map (revocationEvents w smartAccount) revocations,
   Returned (results ++ map (fun _ => placeholderHash) (filter (encodes w) revocations))).
Proof.
  revert results. induction revocations as [|r rest IH]; intro results.
  - cbn. now rewrite app_nil_r.
  - cbn [Executor.revocationLoop flat_map filter].
    rewrite revokeApproval_cases. unfold revocationEvents, encodes.
    destruct (encodeFunctionData w (Executor.spender r)) as [data|e].
    + rewrite bind_returned. cbn [ret result trace fst snd try_catch].
      rewrite bind_returned, IH. cbn [trace result fst snd map].
      rewrite app_nil_r, <- app_assoc. reflexivity.
    + rewrite bind_thrown, try_catch_thrown, emit_then.
      cbn [ret result trace fst snd].
      rewrite bind_returned, IH. cbn [trace result fst snd app].
      reflexivity.
Qed.

Lemma authorityCalls_revocations (w : World) (smartAccount : string)
  (revocations : list Executor.Revocation) :
  authorityCalls (flat_map (revocationEvents w smartAccount) revocations) = 0.
Proof.
  induction revocations as [|r rest IH]; [reflexivity|].
  cbn [flat_map]. rewrite authorityCalls_app, IH.
  unfold revocationEvents. now destruct (encodeFunctionData w (Executor.spender r)).
Qed.

(** C1 (as amended): the executor keeps no execution records and does not
    de-duplicate: [executeMultipleRevocations] runs [revokeApproval] once for
    every element of the list, in order, and returns one placeholder
    reference for each element whose calldata encodes, so an action handed
    over twice is processed twice. [revokeApproval] is a stub: the authority
    provider receives no submission at all. *)
Theorem executor_processes_every_entry (w : World) (smartAccount : string)
  (revocations : list Executor.Revocation) (d : DelegationRegistry.DelegationRecord) :
  result (Executor.executeMultipleRevocations w smartAccount revocations d)
    = Returned (map (fun _ => placeholderHash) (filter (encodes w) revocations)) /\
  trace (Executor.executeMultipleRevocations w smartAccount revocations d)
    = flat_map (revocationEvents w smartAccount) revocations /\
  authorityCalls (trace (Executor.executeMultipleRevocations w smartAccount revocations d))
    = 0.
Proof.
  unfold Executor.executeMultipleRevocations. rewrite revocationLoop_spec.
  cbn [result trace fst snd app]. split; [reflexivity|]. split; [reflexivity|].
  apply authorityCalls_revocations.
Qed.

(** C1 (counterexample): the same revocation, of a well-formed token and
    spender, handed over twice yields two references and two runs of
    [revokeApproval], and no submission to the authority provider. *)
Lemma executor_idempotency_counterexample :
  isLowerHex 40 (Executor.spender sampleRevocation) = true /\
  Executor.executeMultipleRevocations (sampleWorld (Returned [])) sampleWallet
    [sampleRevocation; sampleRevocation] scopedGrant
  = ([ConsoleLog ("Would revoke approval for " ++ sampleToken
                  ++ " on " ++ sampleWallet)%string;
      ConsoleLog
        "Delegation feature will be available once MetaMask Smart Accounts are set up";
      ConsoleLog ("Would revoke approval for " ++ sampleToken
                  ++ " on " ++ sampleWallet)%string;
      ConsoleLog
        "Delegation feature will be available once MetaMask Smart Accounts are set up"],
     Returned [placeholderHash; placeholderHash]) /\
  authorityCalls
    (trace (Executor.executeMultipleRevocations (sampleWorld (Returned [])) sampleWallet
              [sampleRevocation; sampleRevocation] scopedGrant))
  <> 1.
Proof.
  split; [reflexivity|]. split; [reflexivity|]. vm_compute. discriminate.
Qed.

(** ** Wallet monitor *)

Lemma getExecutor_silent (w : World) : trace (Executor.getExecutor w) = [].
Proof.
  unfold Executor.getExecutor.
  destruct (AGENT_PRIVATE_KEY w) as [k|]; [|reflexivity].
  destruct (truthy k); reflexivity.
Qed.

Lemma getAllApprovals_spec (w : World) (wallet : string) :
  getAllApprovals w wallet = (fetchEvents w wallet, Returned (fetched w wallet)).
Proof.
  unfold getAllApprovals, fetchEvents, fetched.
  destruct (indexer w "GetAllApprovals" (toLowerCase wallet)); reflexivity.
Qed.

Lemma checkWallet_spec (w : World) (wallet : string)
  (d : DelegationRegistry.DelegationRecord) :
  Monitor.checkWallet w wallet d =
  (ConsoleLog ("Checking wallet: " ++ wallet)%string
     :: fetchEvents w wallet ++ executionEvents w wallet,
   Returned tt).
Proof.
  unfold Monitor.checkWallet. rewrite emit_then, getAllApprovals_spec, bind_returned.
  unfold executionEvents, proposedRevocations.
  generalize (getExecutor_silent w).
  destruct (Executor.getExecutor w) as [t [acct|e]]; cbn [trace result fst snd];
    intros ->;
    destruct (length (evaluateAllApprovals (Date_now w) (fetched w wallet)) =? 0)%nat;
    try reflexivity.
  - rewrite emit_then, bind_returned.
    destruct (0 <? length (Monitor.buildRevocations (fetched w wallet)
                (evaluateAllApprovals (Date_now w) (fetched w wallet))))%nat.
    + unfold Executor.executeMultipleRevocations.
      rewrite revocationLoop_spec, bind_returned.
      cbn [emit trace result fst snd try_catch app].
      now rewrite length_map.
    + reflexivity.
  - rewrite emit_then, bind_thrown. cbn [trace result fst snd].
    rewrite try_catch_thrown. cbn [emit trace result fst snd].
    now rewrite <- app_assoc.
Qed.

Lemma authorityCalls_checkWallet (w : World) (wallet : string)
  (d : DelegationRegistry.DelegationRecord) :
  authorityCalls (trace (Monitor.checkWallet w wallet d)) = 0.
Proof.
  rewrite checkWallet_spec. cbn [trace fst].
  change (ConsoleLog ("Checking wallet: " ++ wallet)%string
            :: fetchEvents w wallet ++ executionEvents w wallet)
    with ([ConsoleLog ("Checking wallet: " ++ wallet)%string]
            ++ fetchEvents w wallet ++ executionEvents w wallet).
  rewrite !authorityCalls_app.
  assert (Hf : authorityCalls (fetchEvents w wallet) = 0).
  { unfold fetchEvents.
    now destruct (indexer w "GetAllApprovals" (toLowerCase wallet)). }
  assert (He : authorityCalls (executionEvents w wallet) = 0).
  { unfold executionEvents.
    destruct (length (evaluateAllApprovals (Date_now w) (fetched w wallet)) =? 0)%nat;
      [reflexivity|].
    destruct (result (Executor.getExecutor w)); [|reflexivity].
    destruct (0 <? length (proposedRevocations w wallet))%nat; [|reflexivity].
    change (authorityCalls
              (flat_map (revocationEvents w wallet) (proposedRevocations w wallet)
               ++ [ConsoleLog ("Executed "
                    ++ showNat (length (filter (encodes w) (proposedRevocations w wallet)))
                    ++ " revocations for " ++ wallet)%string]) = 0).
    now rewrite authorityCalls_app, authorityCalls_revocations. }
  now rewrite Hf, He.
Qed.

(** C2 (as amended): neither [checkWallet] nor the executor reads the scope
    of the delegation. A proposed revocation whose token is not among the
    delegation's targets goes through [revokeApproval] like any other and is
    counted in the "Executed n revocations" report, and the run is the same
    for every delegation passed in. The authority provider is called zero
    times, for every action, because [revokeApproval] submits nothing. *)
Theorem scope_never_checked (w : World) (wallet : string)
  (d : DelegationRegistry.DelegationRecord) (r : Executor.Revocation) (acct : string)
  (Hexec : result (Executor.getExecutor w) = Returned acct)
  (Hin : In r (proposedRevocations w wallet))
  (Henc : encodes w r = true)
  (Hout : ~ In (Executor.token r)
              (DelegationRegistry.targets (DelegationRegistry.scope d))) :
  In (ConsoleLog ("Would revoke approval for " ++ Executor.token r
                  ++ " on " ++ wallet)%string)
     (trace (Monitor.checkWallet w wallet d)) /\
  In r (filter (encodes w) (proposedRevocations w wallet)) /\
  In (ConsoleLog ("Executed "
                  ++ showNat (length (filter (encodes w) (proposedRevocations w wallet)))
                  ++ " revocations for " ++ wallet)%string)
     (trace (Monitor.checkWallet w wallet d)) /\
  (forall d', Monitor.checkWallet w wallet d' = Monitor.checkWallet w wallet d) /\
  (forall revocations d',
      Executor.executeMultipleRevocations w wallet revocations d'
      = Executor.executeMultipleRevocations w wallet revocations d) /\
  authorityCalls (trace (Monitor.checkWallet w wallet d)) = 0.
Proof.
  assert (Hexecuted :
    executionEvents w wallet
    = ConsoleLog ("Found "
                  ++ showNat (length (evaluateAllApprovals (Date_now w) (fetched w wallet)))
                  ++ " actions for " ++ wallet)%string
      :: flat_map (revocationEvents w wallet) (proposedRevocations w wallet)
      ++ [ConsoleLog ("Executed "
                      ++ showNat (length (filter (encodes w) (proposedRevocations w wallet)))
                      ++ " revocations for " ++ wallet)%string]).
  { unfold executionEvents.
    destruct (length (evaluateAllApprovals (Date_now w) (fetched w wallet)) =? 0)%nat
      eqn:Elen.
    - apply Nat.eqb_eq, length_zero_iff_nil in Elen.
      unfold proposedRevocations in Hin. rewrite Elen in Hin. destruct Hin.
    - rewrite Hexec.
      destruct (proposedRevocations w wallet) as [|r0 revs] eqn:Erevs; [destruct Hin|].
      reflexivity. }
  split; [|split; [|split; [|split; [|split]]]].
  - rewrite checkWallet_spec, Hexecuted. cbn [trace fst]. right.
    apply in_or_app. right. right. apply in_or_app. left.
    apply in_flat_map. exists r. split; [exact Hin|].
    unfold revocationEvents. unfold encodes in Henc.
    destruct (encodeFunctionData w (Executor.spender r)); [now left|discriminate].
  - apply filter_In. now split.
  - rewrite checkWallet_spec, Hexecuted. cbn [trace fst]. right.
    apply in_or_app. right. right. apply in_or_app. right. now left.
  - intros d'. now rewrite !checkWallet_spec.
  - intros revocations d'. unfold Executor.executeMultipleRevocations.
    now rewrite !revocationLoop_spec.
  - apply authorityCalls_checkWallet.
Qed.

Lemma scope_never_checked_witness :
  ~ In sampleToken
       (DelegationRegistry.targets (DelegationRegistry.scope scopedGrant)) /\
  In (ConsoleLog ("Would revoke approval for " ++ sampleToken
                  ++ " on " ++ sampleWallet)%string)
     (trace (Monitor.checkWallet (sampleWorld (Returned [approvalToFirst]))
               sampleWallet scopedGrant)) /\
  In (ConsoleLog ("Executed 1 revocations for " ++ sampleWallet)%string)
     (trace (Monitor.checkWallet (sampleWorld (Returned [approvalToFirst]))
               sampleWallet scopedGrant)).
Proof.
  assert (Hout : ~ In sampleToken
                   (DelegationRegistry.targets (DelegationRegistry.scope scopedGrant))).
  { simpl. intros [H|[]]. discriminate H. }
  split; [exact Hout|].
  pose proof (scope_never_checked (sampleWorld (Returned [approvalToFirst]))
                sampleWallet scopedGrant sampleRevocation sampleAccount eq_refl
                (or_introl eq_refl) eq_refl Hout) as [H1 [_ [H3 _]]].
  split; [exact H1|exact H3].
Defined.

(** C2 (counterexample): the delegation's scope lists [otherToken] only, and
    the wallet has an unlimited approval of [sampleToken]: the revocation of
    [sampleToken] is handed to the executor, which runs [revokeApproval] on
    it and reports it as executed. Key, token and spender are well formed:
    the executor is built and the calldata encodes. *)
Lemma scope_enforcement_counterexample :
  DelegationRegistry.targets (DelegationRegistry.scope scopedGrant) = [otherToken] /\
  sampleToken <> otherToken /\
  result (Executor.getExecutor (sampleWorld (Returned [approvalToFirst])))
    = Returned sampleAccount /\
  Monitor.checkWallet (sampleWorld (Returned [approvalToFirst])) sampleWallet
    scopedGrant
  = ([ConsoleLog ("Checking wallet: " ++ sampleWallet)%string;
      IndexerRequest "GetAllApprovals" sampleWallet;
      ConsoleLog ("Found 1 actions for " ++ sampleWallet)%string;
      ConsoleLog ("Would revoke approval for " ++ sampleToken
                  ++ " on " ++ sampleWallet)%string;
      ConsoleLog
        "Delegation feature will be available once MetaMask Smart Accounts are set up";
      ConsoleLog ("Executed 1 revocations for " ++ sampleWallet)%string],
     Returned tt).
Proof.
  split; [reflexivity|]. split; [discriminate|]. split; reflexivity.
Qed.

(** C7 (as amended): a failed indexer request is caught inside
    [getAllApprovals], logged, and turned into the empty list; [checkWallet]
    then reports that no action is needed, exactly as it does for a request
    that succeeded with no approvals. The request is made once and nothing
    is retried; the two runs differ only by the error line on the console. *)
Theorem indexer_failure_reads_as_empty (w w' : World) (wallet : string)
  (d : DelegationRegistry.DelegationRecord) (e : exn)
  (Hfail : indexer w "GetAllApprovals" (toLowerCase wallet) = Thrown e)
  (Hempty : indexer w' "GetAllApprovals" (toLowerCase wallet) = Returned []) :
  getAllApprovals w wallet
  = ([IndexerRequest "GetAllApprovals" (toLowerCase wallet);
      ConsoleError "Error fetching approvals:" e],
     Returned []) /\
  Monitor.checkWallet w wallet d
  = ([ConsoleLog ("Checking wallet: " ++ wallet)%string;
      IndexerRequest "GetAllApprovals" (toLowerCase wallet);
      ConsoleError "Error fetching approvals:" e;
      ConsoleLog ("No actions needed for " ++ wallet)%string],
     Returned tt) /\
  Monitor.checkWallet w' wallet d
  = ([ConsoleLog ("Checking wallet: " ++ wallet)%string;
      IndexerRequest "GetAllApprovals" (toLowerCase wallet);
      ConsoleLog ("No actions needed for " ++ wallet)%string],
     Returned tt).
Proof.
  split; [|split].
  - rewrite getAllApprovals_spec. unfold fetchEvents, fetched. now rewrite Hfail.
  - rewrite checkWallet_spec.
    unfold executionEvents, fetchEvents, fetched. now rewrite Hfail.
  - rewrite checkWallet_spec.
    unfold executionEvents, fetchEvents, fetched. now rewrite Hempty.
Qed.

Lemma indexer_failure_reads_as_empty_witness :
  Monitor.checkWallet (sampleWorld (Thrown "timeout")) "0xWallet1"
    (mkGrant "d1" "0xWallet1" "0xagent")
  = ([ConsoleLog "Checking wallet: 0xWallet1";
      IndexerRequest "GetAllApprovals" "0xwallet1";
      ConsoleError "Error fetching approvals:" "timeout";
      ConsoleLog "No actions needed for 0xWallet1"],
     Returned tt).
Proof.
  exact (proj1 (proj2 (indexer_failure_reads_as_empty
                         (sampleWorld (Thrown "timeout")) (sampleWorld (Returned []))
                         "0xWallet1" (mkGrant "d1" "0xWallet1" "0xagent") "timeout"
                         eq_refl eq_refl))).
Defined.

(** C7 (counterexample): an indexer request that times out gives
    [checkWallet] the same approvals (none), the same result and the same
    "No actions needed" report as a request answered with an empty set. *)
Lemma indexer_timeout_counterexample :
  result (getAllApprovals (sampleWorld (Thrown "timeout")) "0xwallet1")
    = result (getAllApprovals (sampleWorld (Returned [])) "0xwallet1") /\
  result (Monitor.checkWallet (sampleWorld (Thrown "timeout")) "0xwallet1"
            (mkGrant "d1" "0xwallet1" "0xagent"))
    = result (Monitor.checkWallet (sampleWorld (Returned [])) "0xwallet1"
                (mkGrant "d1" "0xwallet1" "0xagent")) /\
  In (ConsoleLog "No actions needed for 0xwallet1")
     (trace (Monitor.checkWallet (sampleWorld (Thrown "timeout")) "0xwallet1"
               (mkGrant "d1" "0xwallet1" "0xagent"))).
Proof.
  split; [reflexivity|]. split; [reflexivity|].
  vm_compute. tauto.
Qed.

(** *** Resolving the spender of a revocation *)

Lemma find_first {A} (f : A -> bool) (l1 : list A) (a : A) (rest : list A) :
  (forall x, In x l1 -> f x = false) -> f a = true ->
  find f (l1 ++ a :: rest) = Some a.
Proof.
  intros Hnone Ha. induction l1 as [|x l1 IH]; simpl.
  - now rewrite Ha.
  - rewrite (Hnone x) by now left.
    apply IH. intros y Hy. apply Hnone. now right.
Qed.

Lemma buildRevocations_cons (approvals : list TokenApprovalData)
  (r : RuleResult) (actions : list RuleResult) :
  action r = revoke ->
  Monitor.buildRevocations approvals (r :: actions) =
  match find (fun app => token app =? target r) approvals with
  | Some first =>
    if truthy (spender first)
    then [{| Executor.token := target r; Executor.spender := spender first |}]
    else []
  | None => []
  end ++ Monitor.buildRevocations approvals actions.
Proof.
  intros Hact. unfold Monitor.buildRevocations.
  cbn [filter]. rewrite Hact. cbn [Monitor.isRevoke map filter Monitor.spender].
  unfold Monitor.resolveSpender, Monitor.approvalToken, Monitor.approvalSpender.
  destruct (find (fun app => token app =? target r) approvals) as [first|];
    cbn [option_map truthy_opt]; [|reflexivity].
  destruct (truthy (spender first)); reflexivity.
Qed.

Lemma buildRevocations_evaluateAll (approvals l : list TokenApprovalData) :
  Monitor.buildRevocations approvals (evaluateAll_spec (evaluateApproval 0) l)
  = flat_map (revocationFor approvals) l.
Proof.
  induction l as [|a l IH]; [reflexivity|].
  cbn [evaluateAll_spec flat_map]. unfold revocationFor at 1.
  destruct (evaluateApproval 0 a) as [r|] eqn:E; [|exact IH].
  destruct (evaluateApproval_target _ _ _ E) as [Ht Ha].
  rewrite buildRevocations_cons by exact Ha. now rewrite Ht, IH.
Qed.


Lemma revocationFor_hit (approvals : list TokenApprovalData)
  (a first : TokenApprovalData) :
  evaluateApproval 0 a <> None ->
  find (fun app => token app =? token a) approvals = Some first ->
  spender first <> "" ->
  revocationFor approvals a
  = [{| Executor.token := token a; Executor.spender := spender first |}].
Proof.
  intros Hev Hfind Hne. unfold revocationFor.
  destruct (evaluateApproval 0 a); [|congruence].
  rewrite Hfind. unfold truthy.
  apply String.eqb_neq in Hne. now rewrite Hne.
Qed.






(** ** Scheduling of cycles *)

Lemma ticks_pile_up (n : nat) (s : Monitor.Scheduler) :
  Monitor.inFlight (Monitor.run (repeat Monitor.CronTick n) s)
    = Monitor.inFlight s + n * Monitor.cronTasks s /\
  Monitor.cronTasks (Monitor.run (repeat Monitor.CronTick n) s) = Monitor.cronTasks s.
Proof.
  revert s. induction n as [|n IH]; intro s.
  - cbn. split; lia.
  - cbn [repeat Monitor.run fold_left Monitor.step].
    destruct (IH (Monitor.cronTick s)) as [H1 H2].
    unfold Monitor.run in H1, H2. rewrite H1, H2.
    cbn [Monitor.cronTick Monitor.inFlight Monitor.cronTasks]. split; lia.
Qed.

(** C4 (as amended): the monitor has no guard against overlapping cycles.
    Every tick starts one cycle for every registered cron task whatever the
    number of cycles still in flight, so no tick is ever skipped; [isRunning]
    only turns a second [start] into a no-op while the monitor runs, and
    [stop] cancels neither the cron task nor a cycle. After [start], n ticks
    that fire before any cycle settles leave n + 1 cycles in flight. *)
Theorem ticks_never_skipped (s : Monitor.Scheduler) (n : nat) :
  Monitor.inFlight (Monitor.cronTick s) = Monitor.inFlight s + Monitor.cronTasks s /\
  Monitor.cyclesStarted (Monitor.cronTick s)
    = Monitor.cyclesStarted s + Monitor.cronTasks s /\
  (Monitor.isRunning s = true -> Monitor.start s = s) /\
  Monitor.cronTasks (Monitor.stop s) = Monitor.cronTasks s /\
  Monitor.inFlight (Monitor.stop s) = Monitor.inFlight s /\
  Monitor.inFlight
    (Monitor.run (Monitor.CallStart :: repeat Monitor.CronTick n) Monitor.initial)
  = S n.
Proof.
  split; [reflexivity|]. split; [reflexivity|]. split; [|split; [|split]].
  - intros H. unfold Monitor.start. now rewrite H.
  - reflexivity.
  - reflexivity.
  - change (Monitor.run (Monitor.CallStart :: repeat Monitor.CronTick n) Monitor.initial)
      with (Monitor.run (repeat Monitor.CronTick n) (Monitor.start Monitor.initial)).
    rewrite (proj1 (ticks_pile_up n _)). cbn. lia.
Qed.

(** C4 (counterexample): the monitor is started and the first five-minute
    tick fires before the start-up cycle has finished: the tick is not
    skipped, a second cycle starts and two cycles are in flight. *)
Lemma overlapping_cycles_counterexample :
  Monitor.inFlight (Monitor.run [Monitor.CallStart] Monitor.initial) = 1 /\
  Monitor.inFlight (Monitor.run [Monitor.CallStart; Monitor.CronTick] Monitor.initial) = 2 /\
  Monitor.cyclesStarted
    (Monitor.run [Monitor.CallStart; Monitor.CronTick] Monitor.initial) = 2.
Proof. split; [|split]; reflexivity. Qed.

(** * Further properties of the code *)

(** ** Rule engine *)

Lemma evaluateApproval_none (now : Z) (a : TokenApprovalData) :
  evaluateApproval now a = None <-> (amount a <> UNLIMITED /\ isRisky a = false).
Proof.
  unfold evaluateApproval, checkUnlimitedApproval, checkRiskyApproval, checkStaleApproval.
  destruct (amount a =? UNLIMITED) eqn:E.
  - apply String.eqb_eq in E. split; [discriminate|]. intros [H _]. contradiction.
  - apply String.eqb_neq in E. destruct (isRisky a).
    + split; [discriminate|]. intros [_ H]. discriminate.
    + split; [now split|reflexivity].
Qed.

(** X1: [evaluateApproval] proposes nothing exactly for an approval whose
    amount is not the maxUint256 string and that is not flagged risky: the
    stale rule never fires, whatever the clock says. *)
Theorem evaluate_none_iff (now : Z) (a : TokenApprovalData) :
  evaluateApproval now a = None <-> (amount a <> UNLIMITED /\ isRisky a = false).
Proof. exact (evaluateApproval_none now a). Qed.

(** X2: every action [evaluateAllApprovals] returns is a revoke with
    [shouldExecute] set, and its target is the token of an input approval
    that is unlimited or risky: the engine never proposes a cleanup or a
    consolidation, and never an action for a token it was not shown. *)
Theorem actions_are_revokes_of_inputs (clock : nat -> Z)
  (l : list TokenApprovalData) (r : RuleResult) :
  In r (evaluateAllApprovals clock l) ->
  action r = revoke /\ shouldExecute r = true /\
  exists a, In a l /\ target r = token a /\
            (amount a = UNLIMITED \/ isRisky a = true).
Proof.
  rewrite evaluateAllApprovals_spec.
  induction l as [|a l IH]; [intros []|].
  cbn [evaluateAll_spec]. destruct (evaluateApproval 0 a) as [r'|] eqn:E.
  - intros [<-|Hin].
    + destruct (evaluateApproval_target _ _ _ E) as [Ht Ha].
      split; [exact Ha|]. split.
      * revert E. unfold evaluateApproval, checkUnlimitedApproval, checkRiskyApproval,
          checkStaleApproval.
        destruct (amount a =? UNLIMITED); [now intros [= <-]|].
        destruct (isRisky a); [now intros [= <-]|discriminate].
      * exists a. split; [now left|]. split; [exact Ht|].
        destruct (String.eqb_spec (amount a) UNLIMITED) as [Hu|Hu]; [now left|].
        right. destruct (isRisky a) eqn:Hr; [reflexivity|].
        assert (Hnone : evaluateApproval 0 a = None) by now apply evaluateApproval_none.
        congruence.
    + destruct (IH Hin) as [H1 [H2 [a' [H3 H4]]]].
      split; [exact H1|]. split; [exact H2|]. exists a'. split; [now right|exact H4].
  - intros Hin. destruct (IH Hin) as [H1 [H2 [a' [H3 H4]]]].
    split; [exact H1|]. split; [exact H2|]. exists a'. split; [now right|exact H4].
Qed.

Lemma actions_are_revokes_of_inputs_witness :
  In (unlimitedAction unlimitedApproval)
     (evaluateAllApprovals (fun _ => 0%Z) [unlimitedApproval; limitedApproval]) /\
  action (unlimitedAction unlimitedApproval) = revoke.
Proof.
  assert (Hin : In (unlimitedAction unlimitedApproval)
                  (evaluateAllApprovals (fun _ => 0%Z)
                     [unlimitedApproval; limitedApproval])) by now left.
  split; [exact Hin|].
  exact (proj1 (actions_are_revokes_of_inputs _ _ _ Hin)).
Defined.

(** X3: [evaluateAllApprovals] returns one action per approval that is
    unlimited or risky, so never more actions than approvals. *)
Theorem actions_count (clock : nat -> Z) (l : list TokenApprovalData) :
  length (evaluateAllApprovals clock l)
  = length (filter (fun a => (amount a =? UNLIMITED) || isRisky a) l) /\
  length (evaluateAllApprovals clock l) <= length l.
Proof.
  rewrite evaluateAllApprovals_spec.
  assert (H : length (evaluateAll_spec (evaluateApproval 0) l)
              = length (filter (fun a => (amount a =? UNLIMITED) || isRisky a) l)).
  { induction l as [|a l IH]; [reflexivity|].
    cbn [evaluateAll_spec filter].
    unfold evaluateApproval at 1, checkUnlimitedApproval, checkRiskyApproval,
      checkStaleApproval.
    destruct (amount a =? UNLIMITED); [cbn; now rewrite IH|].
    destruct (isRisky a); cbn; now rewrite IH. }
  split; [exact H|]. rewrite H. apply filter_length_le.
Qed.

(** ** Delegation registry *)

Lemma values_ids_not_key (m : DelegationRegistry.Delegations) (k : string) :
  DelegationRegistry.wellFormed m ->
  DelegationRegistry.Map_get k m = None ->
  forall d, In d (DelegationRegistry.Map_values m) -> DelegationRegistry.id d <> k.
Proof.
  intros [_ Hk] Hnone d Hin Hid.
  apply in_map_iff in Hin as [[k' d'] [Hd Hin]]. cbn [snd] in Hd. subst d'.
  rewrite Forall_forall in Hk. specialize (Hk _ Hin). cbn [fst snd] in Hk.
  apply In_Map_get in Hin. congruence.
Qed.

Lemma filter_id (A : Type) (f : A -> bool) (l : list A) :
  (forall x, In x l -> f x = true) -> filter f l = l.
Proof.
  induction l as [|x l IH]; [reflexivity|]. intros H. cbn [filter].
  rewrite (H x) by now left. f_equal. apply IH. intros y Hy. apply H. now right.
Qed.

Lemma wellFormed_tail (kv : string * DelegationRegistry.DelegationRecord)
  (m : DelegationRegistry.Delegations) :
  DelegationRegistry.wellFormed (kv :: m) ->
  DelegationRegistry.wellFormed m /\ DelegationRegistry.Map_get (fst kv) m = None
  /\ fst kv = DelegationRegistry.id (snd kv).
Proof.
  intros [Hnd Hk]. inversion Hnd as [|? ? Hnotin Hnd']; subst.
  inversion Hk as [|? ? Hhead Hk']; subst.
  split; [now split|]. split; [|exact Hhead].
  destruct (DelegationRegistry.Map_get (fst kv) m) as [d|] eqn:E; [|reflexivity].
  exfalso. apply Hnotin. apply Map_get_In in E. now apply (in_map fst) in E.
Qed.

Lemma active_after_revoke (m : DelegationRegistry.Delegations) (k : string)
  (f : DelegationRegistry.DelegationRecord -> bool) :
  DelegationRegistry.wellFormed m ->
  filter (fun d => f d && DelegationRegistry.isActive d)
    (DelegationRegistry.Map_values
       (DelegationRegistry.after (DelegationRegistry.revoke m k) m))
  = filter (fun d => negb (DelegationRegistry.id d =? k))
      (filter (fun d => f d && DelegationRegistry.isActive d)
         (DelegationRegistry.Map_values m)).
Proof.
  intros Hwf. rewrite after_revoke.
  assert (Hkeep : forall m', DelegationRegistry.wellFormed m' ->
            DelegationRegistry.Map_get k m' = None ->
            filter (fun d => negb (DelegationRegistry.id d =? k))
              (filter (fun d => f d && DelegationRegistry.isActive d)
                 (DelegationRegistry.Map_values m'))
            = filter (fun d => f d && DelegationRegistry.isActive d)
                (DelegationRegistry.Map_values m')).
  { intros m' Hwf' Hnone. apply filter_id. intros d Hd.
    apply filter_In in Hd as [Hd _].
    apply negb_true_iff, String.eqb_neq. now apply (values_ids_not_key m'). }
  induction m as [|[k' v'] m IH].
  - reflexivity.
  - destruct (wellFormed_tail _ _ Hwf) as [Hwf' [Hnone Hkey]].
    cbn [fst snd] in Hnone, Hkey. subst k'.
    cbn [DelegationRegistry.Map_get].
    destruct (DelegationRegistry.id v' =? k) eqn:E.
    + cbn [DelegationRegistry.Map_set]. rewrite E.
      apply String.eqb_eq in E. rewrite E in Hnone.
      unfold DelegationRegistry.Map_values. cbn [map snd filter].
      cbn [DelegationRegistry.deactivate DelegationRegistry.isActive].
      rewrite andb_false_r.
      fold (DelegationRegistry.Map_values m).
      destruct (f v' && DelegationRegistry.isActive v').
      * cbn [filter]. rewrite E, String.eqb_refl. cbn [negb].
        symmetry. now apply Hkeep.
      * symmetry. now apply Hkeep.
    + specialize (IH Hwf').
      destruct (DelegationRegistry.Map_get k m) as [d0|] eqn:Eget.
      * cbn [DelegationRegistry.Map_set]. rewrite E.
        unfold DelegationRegistry.Map_values in *. cbn [map snd filter].
        destruct (f v' && DelegationRegistry.isActive v').
        -- cbn [filter]. rewrite E. cbn [negb]. f_equal. exact IH.
        -- exact IH.
      * unfold DelegationRegistry.Map_values in *. cbn [map snd filter].
        destruct (f v' && DelegationRegistry.isActive v').
        -- cbn [filter]. rewrite E. cbn [negb]. f_equal. exact IH.
        -- exact IH.
Qed.

(** X4: what is registered can be read back at once: after [register] of an
    active record, [getActiveDelegations] of its delegate and
    [getDelegationsForWallet] of its delegator contain it, and
    [hasDelegation] answers true for the pair. *)
Theorem register_then_read (m : DelegationRegistry.Delegations)
  (d : DelegationRegistry.DelegationRecord)
  (Hactive : DelegationRegistry.isActive d = true) :
  let m' := DelegationRegistry.after (DelegationRegistry.register m d) m in
  In d (returned [] (DelegationRegistry.getActiveDelegations m'
                       (DelegationRegistry.delegate d))) /\
  In d (returned [] (DelegationRegistry.getDelegationsForWallet m'
                       (DelegationRegistry.delegator d))) /\
  result (DelegationRegistry.hasDelegation m' (DelegationRegistry.delegator d)
            (DelegationRegistry.delegate d)) = Returned true.
Proof.
  intros m'.
  assert (Hin : In d (DelegationRegistry.Map_values m')).
  { unfold m', DelegationRegistry.after, DelegationRegistry.register.
    cbn [result snd emit bind ret].
    unfold DelegationRegistry.Map_values.
    apply in_map_iff. exists (DelegationRegistry.id d, d). split; [reflexivity|].
    apply Map_get_In, Map_get_set_same. }
  clearbody m'. split; [|split].
  - cbn. apply filter_In. split; [exact Hin|].
    now rewrite String.eqb_refl, Hactive.
  - cbn. apply filter_In. split; [exact Hin|]. apply String.eqb_refl.
  - cbn. f_equal. apply existsb_exists. exists d. split; [exact Hin|].
    now rewrite !String.eqb_refl, Hactive.
Qed.

Lemma register_then_read_witness :
  In (mkGrant "d3" "0xwallet3" "0xagent")
     (returned []
        (DelegationRegistry.getActiveDelegations
           (DelegationRegistry.after
              (DelegationRegistry.register twoGrants (mkGrant "d3" "0xwallet3" "0xagent"))
              twoGrants)
           "0xagent")).
Proof.
  exact (proj1 (register_then_read twoGrants (mkGrant "d3" "0xwallet3" "0xagent")
                  eq_refl)).
Defined.

(** X5: whatever sequence of [register] and [revoke] calls the registry has
    seen since it was created, it holds one entry per key and every entry is
    filed under the id of its record. *)
Theorem registry_invariant (ops : list RegistryOp) :
  DelegationRegistry.wellFormed (applyOps ops DelegationRegistry.empty).
Proof.
  unfold applyOps.
  generalize wellFormed_empty. generalize DelegationRegistry.empty.
  induction ops as [|op ops IH]; intros m Hwf; [exact Hwf|].
  cbn [fold_left]. apply IH. destruct op as [d|k].
  - now apply wellFormed_register.
  - now apply wellFormed_revoke.
Qed.

Lemma getActive_after_revoke (m : DelegationRegistry.Delegations)
  (k delegate' : string) (Hwf : DelegationRegistry.wellFormed m) :
  returned [] (DelegationRegistry.getActiveDelegations
                 (DelegationRegistry.after (DelegationRegistry.revoke m k) m) delegate')
  = filter (fun d => negb (DelegationRegistry.id d =? k))
      (returned [] (DelegationRegistry.getActiveDelegations m delegate')).
Proof.
  cbn [returned result snd DelegationRegistry.getActiveDelegations ret].
  exact (active_after_revoke m k
           (fun d => DelegationRegistry.delegate d =? delegate') Hwf).
Qed.

(** X6: [revoke] hides exactly the delegation of that id: the active
    delegations of any delegate after [revoke] are the ones before it,
    without the record of the revoked id and in the same order. *)
Theorem revoke_hides_only_that_id (m : DelegationRegistry.Delegations)
  (k delegate' : string) (Hwf : DelegationRegistry.wellFormed m) :
  returned [] (DelegationRegistry.getActiveDelegations
                 (DelegationRegistry.after (DelegationRegistry.revoke m k) m) delegate')
  = filter (fun d => negb (DelegationRegistry.id d =? k))
      (returned [] (DelegationRegistry.getActiveDelegations m delegate')).
Proof. exact (getActive_after_revoke m k delegate' Hwf). Qed.

Lemma revoke_hides_only_that_id_witness :
  returned [] (DelegationRegistry.getActiveDelegations
                 (DelegationRegistry.after (DelegationRegistry.revoke twoGrants "d1")
                    twoGrants) "0xagent")
  = [mkGrant "d2" "0xwallet2" "0xagent"].
Proof.
  assert (Hwf : DelegationRegistry.wellFormed twoGrants).
  { split.
    - simpl. repeat constructor; simpl; intuition discriminate.
    - repeat constructor. }
  rewrite (revoke_hides_only_that_id twoGrants "d1" "0xagent" Hwf).
  reflexivity.
Defined.

Lemma revoke_same_ids (m : DelegationRegistry.Delegations) (k wallet : string)
  (d0 : DelegationRegistry.DelegationRecord) :
  DelegationRegistry.Map_get k m = Some d0 ->
  map DelegationRegistry.id
    (filter (fun d => DelegationRegistry.delegator d =? wallet)
       (DelegationRegistry.Map_values
          (DelegationRegistry.Map_set k (DelegationRegistry.deactivate d0) m)))
  = map DelegationRegistry.id
      (filter (fun d => DelegationRegistry.delegator d =? wallet)
         (DelegationRegistry.Map_values m)).
Proof.
  unfold DelegationRegistry.Map_values.
  induction m as [|[k' v'] m IH]; [discriminate|].
  cbn [DelegationRegistry.Map_get DelegationRegistry.Map_set].
  destruct (k' =? k).
  - intros [= ->]. cbn [map snd filter].
    cbn [DelegationRegistry.deactivate DelegationRegistry.delegator].
    destruct (DelegationRegistry.delegator d0 =? wallet); reflexivity.
  - intros H. cbn [map snd filter].
    destruct (DelegationRegistry.delegator v' =? wallet); cbn [map];
      now rewrite IH.
Qed.

(** X7: [revoke] never deletes: the registry keeps as many entries as
    before, [getDelegationsForWallet] returns records of the same ids in the
    same order, and the revoked record is still among them, now inactive. *)
Theorem revoke_keeps_records (m : DelegationRegistry.Delegations) (k wallet : string) :
  let m' := DelegationRegistry.after (DelegationRegistry.revoke m k) m in
  length m' = length m /\
  map DelegationRegistry.id
    (returned [] (DelegationRegistry.getDelegationsForWallet m' wallet))
  = map DelegationRegistry.id
      (returned [] (DelegationRegistry.getDelegationsForWallet m wallet)) /\
  (forall d0, DelegationRegistry.Map_get k m = Some d0 ->
     In (DelegationRegistry.deactivate d0)
        (returned [] (DelegationRegistry.getDelegationsForWallet m'
                        (DelegationRegistry.delegator d0)))).
Proof.
  intros m'.
  assert (Hm' : m' = match DelegationRegistry.Map_get k m with
                     | Some d => DelegationRegistry.Map_set k
                                   (DelegationRegistry.deactivate d) m
                     | None => m
                     end) by apply after_revoke.
  clearbody m'.
  cbn [returned result snd DelegationRegistry.getDelegationsForWallet ret].
  destruct (DelegationRegistry.Map_get k m) as [d0|] eqn:E; subst m'.
  - split; [|split].
    + rewrite <- (length_map fst), (Map_set_present_keys _ _ d0) by exact E.
      apply length_map.
    + now apply revoke_same_ids.
    + intros d [= <-]. apply filter_In. split.
      * unfold DelegationRegistry.Map_values. apply in_map_iff.
        exists (k, DelegationRegistry.deactivate d0). split; [reflexivity|].
        apply Map_get_In, Map_get_set_same.
      * apply String.eqb_refl.
  - split; [reflexivity|]. split; [reflexivity|]. intros d0 H. discriminate.
Qed.

(** X8: [hasDelegation] and [getActiveDelegations] agree: the pair has a
    delegation exactly when an active delegation of the delegate comes from
    that delegator. *)
Theorem hasDelegation_iff (m : DelegationRegistry.Delegations)
  (delegator' delegate' : string) :
  result (DelegationRegistry.hasDelegation m delegator' delegate') = Returned true <->
  exists d,
    In d (returned [] (DelegationRegistry.getActiveDelegations m delegate')) /\
    DelegationRegistry.delegator d = delegator'.
Proof.
  cbn [returned result snd DelegationRegistry.getActiveDelegations
         DelegationRegistry.hasDelegation ret].
  split.
  - intros [= H]. apply existsb_exists in H as [d [Hin Hd]].
    apply andb_prop in Hd as [Hd Hact]. apply andb_prop in Hd as [Hfrom Hto].
    exists d. split.
    + apply filter_In. split; [exact Hin|]. now rewrite Hto, Hact.
    + now apply String.eqb_eq.
  - intros [d [Hin Hfrom]]. apply filter_In in Hin as [Hin Hd].
    apply andb_prop in Hd as [Hto Hact]. f_equal.
    apply existsb_exists. exists d. split; [exact Hin|].
    subst delegator'. now rewrite String.eqb_refl, Hto, Hact.
Qed.

(** ** Wallet monitor and executor *)

Lemma requests_app (t t' : list event) :
  length (filter isIndexerRequest (t ++ t'))
  = length (filter isIndexerRequest t) + length (filter isIndexerRequest t').
Proof. now rewrite filter_app, length_app. Qed.

Lemma requests_revocations (w : World) (smartAccount : string)
  (revocations : list Executor.Revocation) :
  filter isIndexerRequest (flat_map (revocationEvents w smartAccount) revocations) = [].
Proof.
  induction revocations as [|r rest IH]; [reflexivity|].
  cbn [flat_map]. rewrite filter_app, IH.
  unfold revocationEvents. now destruct (encodeFunctionData w (Executor.spender r)).
Qed.

(** X9: [checkWallet] never throws, whatever the indexer, the environment
    and viem do, and it queries the indexer exactly once, for the
    lower-cased wallet address. *)
Theorem checkWallet_total_one_request (w : World) (wallet : string)
  (d : DelegationRegistry.DelegationRecord) :
  result (Monitor.checkWallet w wallet d) = Returned tt /\
  filter isIndexerRequest (trace (Monitor.checkWallet w wallet d))
  = [IndexerRequest "GetAllApprovals" (toLowerCase wallet)].
Proof.
  rewrite checkWallet_spec. split; [reflexivity|].
  cbn [trace fst filter isIndexerRequest]. rewrite filter_app.
  assert (He : filter isIndexerRequest (executionEvents w wallet) = []).
  { unfold executionEvents.
    destruct (length (evaluateAllApprovals (Date_now w) (fetched w wallet)) =? 0)%nat;
      [reflexivity|].
    cbn [filter isIndexerRequest].
    destruct (result (Executor.getExecutor w)); [|reflexivity].
    destruct (0 <? length (proposedRevocations w wallet))%nat; [|reflexivity].
    now rewrite filter_app, requests_revocations. }
  rewrite He, app_nil_r. unfold fetchEvents. cbn [filter isIndexerRequest].
  now destruct (indexer w "GetAllApprovals" (toLowerCase wallet)).
Qed.

Lemma revocationFor_nonempty (approvals : list TokenApprovalData)
  (a : TokenApprovalData) (r : Executor.Revocation) :
  In r (revocationFor approvals a) ->
  Executor.spender r <> "" /\ Executor.token r = token a /\ evaluateApproval 0 a <> None.
Proof.
  unfold revocationFor.
  destruct (evaluateApproval 0 a); [|intros []].
  destruct (find (fun app => token app =? token a) approvals) as [first|];
    [|intros []].
  destruct (truthy (spender first)) eqn:E; [|intros []].
  intros [<-|[]]. cbn [Executor.spender Executor.token].
  split; [|split; [reflexivity|discriminate]].
  unfold truthy in E. apply negb_true_iff in E. now apply String.eqb_neq.
Qed.

Lemma revocationFor_length (approvals : list TokenApprovalData) (l : list TokenApprovalData) :
  length (flat_map (revocationFor approvals) l)
  <= length (evaluateAll_spec (evaluateApproval 0) l).
Proof.
  induction l as [|a l IH]; [reflexivity|].
  cbn [flat_map evaluateAll_spec]. rewrite length_app. unfold revocationFor at 1.
  destruct (evaluateApproval 0 a); [|exact IH].
  destruct (find (fun app => token app =? token a) approvals) as [first|];
    [|cbn; lia].
  destruct (truthy (spender first)); cbn; lia.
Qed.

(** X10: the revocations [checkWallet] hands to the executor: each has a
    non-empty spender and the token of a fetched approval that a rule
    matched, and there are never more revocations than proposed actions. *)
Theorem revocations_come_from_actions (clock : nat -> Z)
  (approvals : list TokenApprovalData) :
  let actions := evaluateAllApprovals clock approvals in
  let revocations := Monitor.buildRevocations approvals actions in
  length revocations <= length actions /\
  forall r, In r revocations ->
    Executor.spender r <> "" /\
    exists a, In a approvals /\ token a = Executor.token r /\
              (amount a = UNLIMITED \/ isRisky a = true).
Proof.
  cbn zeta. rewrite evaluateAllApprovals_spec, buildRevocations_evaluateAll.
  split; [apply revocationFor_length|].
  intros r Hr. apply in_flat_map in Hr as [a [Ha Hr]].
  apply revocationFor_nonempty in Hr as [Hs [Ht Hev]].
  split; [exact Hs|]. exists a. split; [exact Ha|]. split; [now symmetry|].
  destruct (String.eqb_spec (amount a) UNLIMITED) as [Hu|Hu]; [now left|].
  right. destruct (isRisky a) eqn:Hrisky; [reflexivity|].
  exfalso. apply Hev. now apply evaluateApproval_none.
Qed.

Lemma find_own_token (approvals : list TokenApprovalData) (a : TokenApprovalData) :
  NoDup (map token approvals) -> In a approvals ->
  find (fun app => token app =? token a) approvals = Some a.
Proof.
  induction approvals as [|x l IH]; [intros _ []|].
  cbn [map]. intros Hnd Hin. inversion Hnd as [|? ? Hnotin Hnd']; subst.
  cbn [find]. destruct Hin as [->|Hin].
  - now rewrite String.eqb_refl.
  - destruct (String.eqb_spec (token x) (token a)) as [E|E].
    + exfalso. apply Hnotin. rewrite E. now apply in_map.
    + now apply IH.
Qed.

(** X11: when the fetched approvals are of pairwise distinct tokens and
    none has an empty spender, the revocations are exactly the
    (token, spender) pairs of the approvals a rule matched, in fetch order. *)
Theorem revocations_exact_for_distinct_tokens (clock : nat -> Z)
  (approvals : list TokenApprovalData)
  (Hdistinct : NoDup (map token approvals))
  (Hspenders : forall a, In a approvals -> spender a <> "") :
  Monitor.buildRevocations approvals (evaluateAllApprovals clock approvals)
  = map (fun a => {| Executor.token := token a; Executor.spender := spender a |})
        (filter (fun a => notNull (evaluateApproval 0 a)) approvals).
Proof.
  rewrite evaluateAllApprovals_spec, buildRevocations_evaluateAll.
  assert (H : forall l, incl l approvals ->
            flat_map (revocationFor approvals) l
            = map (fun a => {| Executor.token := token a; Executor.spender := spender a |})
                  (filter (fun a => notNull (evaluateApproval 0 a)) l)).
  { induction l as [|a l IH]; [reflexivity|]. intros Hincl.
    assert (Ha : In a approvals) by (apply Hincl; now left).
    assert (Hl : incl l approvals) by (intros x Hx; apply Hincl; now right).
    cbn [flat_map filter]. rewrite (IH Hl).
    destruct (evaluateApproval 0 a) as [r|] eqn:E.
    - rewrite (revocationFor_hit approvals a a); cbn [notNull map app];
        [reflexivity|congruence|now apply find_own_token|now apply Hspenders].
    - unfold revocationFor. rewrite E. reflexivity. }
  apply H, incl_refl.
Qed.

Lemma revocations_exact_for_distinct_tokens_witness :
  Monitor.buildRevocations [unlimitedApproval; limitedApproval]
    (evaluateAllApprovals (fun _ => 0%Z) [unlimitedApproval; limitedApproval])
  = [{| Executor.token := "0x789"; Executor.spender := "0x456" |}].
Proof.
  refine (revocations_exact_for_distinct_tokens (fun _ => 0%Z)
            [unlimitedApproval; limitedApproval] _ _).
  - repeat constructor; simpl; intuition discriminate.
  - intros a [<-|[<-|[]]]; discriminate.
Defined.

Lemma ret_bind {A B} (a : A) (k : A -> Eff B) : bind (ret a) k = k a.
Proof. unfold ret. rewrite bind_returned. now destruct (k a). Qed.

Lemma checkWallet_returns (w : World) (wallet : string)
  (d : DelegationRegistry.DelegationRecord) :
  result (Monitor.checkWallet w wallet d) = Returned tt.
Proof. now rewrite checkWallet_spec. Qed.

Lemma forEach_checkWallet (w : World) (l : list DelegationRegistry.DelegationRecord) :
  forEach l (fun d => Monitor.checkWallet w (DelegationRegistry.delegator d) d)
  = (flat_map (fun d => trace (Monitor.checkWallet w (DelegationRegistry.delegator d) d)) l,
     Returned tt).
Proof.
  induction l as [|d l IH]; [reflexivity|].
  cbn [forEach flat_map].
  rewrite (eff_eta (Monitor.checkWallet w (DelegationRegistry.delegator d) d)) at 1.
  rewrite (checkWallet_returns w _ d), bind_returned, IH.
  reflexivity.
Qed.

Lemma cycle_body (w : World) (m : DelegationRegistry.Delegations) (agent : string) :
  (active <- DelegationRegistry.getActiveDelegations m agent ;;
   forEach active
     (fun delegation =>
        Monitor.checkWallet w (DelegationRegistry.delegator delegation) delegation))
  = (flat_map
       (fun d => trace (Monitor.checkWallet w (DelegationRegistry.delegator d) d))
       (returned [] (DelegationRegistry.getActiveDelegations m agent)),
     Returned tt).
Proof.
  unfold DelegationRegistry.getActiveDelegations.
  rewrite ret_bind. apply forEach_checkWallet.
Qed.

Lemma checkAllWallets_cases (w : World)
  (m : DelegationRegistry.Delegations) :
  result (Monitor.checkAllWallets w m) = Returned tt /\
  (forall e, result (Executor.getExecutor w) = Thrown e ->
     trace (Monitor.checkAllWallets w m)
     = [ConsoleLog "Checking all wallets..."; ConsoleError "Error checking wallets:" e]) /\
  (forall acct, result (Executor.getExecutor w) = Returned acct ->
     truthy_opt (AGENT_ADDRESS w) = false ->
     trace (Monitor.checkAllWallets w m)
     = [ConsoleLog "Checking all wallets...";
        ConsoleError "Error checking wallets:" "AGENT_ADDRESS not set"]).
Proof.
  unfold Monitor.checkAllWallets. rewrite emit_then.
  generalize (getExecutor_silent w).
  destruct (Executor.getExecutor w) as [t [acct|e]]; cbn [trace result fst snd];
    intros ->.
  - rewrite bind_returned.
    destruct (AGENT_ADDRESS w) as [a|]; cbn [truthy_opt].
    + destruct (truthy a).
      * rewrite ret_bind, cycle_body. cbn [trace result fst snd try_catch app].
        split; [reflexivity|]. split; [discriminate|]. intros ? _ H. discriminate.
      * split; [reflexivity|]. split; [discriminate|]. reflexivity.
    + split; [reflexivity|]. split; [discriminate|]. reflexivity.
  - split; [reflexivity|]. split; [|discriminate]. now intros ? [= <-].
Qed.

(** X12: [checkAllWallets] never throws. When the executor cannot be built
    (no private key, or viem rejects it) or AGENT_ADDRESS is unset or empty,
    the cycle checks no wallet at all: it logs the error and makes no
    indexer request. *)
Theorem cycle_total_and_aborts_unconfigured (w : World)
  (m : DelegationRegistry.Delegations) :
  result (Monitor.checkAllWallets w m) = Returned tt /\
  (forall e, result (Executor.getExecutor w) = Thrown e ->
     trace (Monitor.checkAllWallets w m)
     = [ConsoleLog "Checking all wallets..."; ConsoleError "Error checking wallets:" e]) /\
  (forall acct, result (Executor.getExecutor w) = Returned acct ->
     truthy_opt (AGENT_ADDRESS w) = false ->
     trace (Monitor.checkAllWallets w m)
     = [ConsoleLog "Checking all wallets...";
        ConsoleError "Error checking wallets:" "AGENT_ADDRESS not set"]).
Proof. exact (checkAllWallets_cases w m). Qed.

Lemma checkAllWallets_configured (w : World)
  (m : DelegationRegistry.Delegations) (acct agent : string)
  (Hexec : result (Executor.getExecutor w) = Returned acct)
  (Haddr : AGENT_ADDRESS w = Some agent)
  (Hagent : agent <> "") :
  trace (Monitor.checkAllWallets w m)
  = ConsoleLog "Checking all wallets..." ::
    flat_map
      (fun d => trace (Monitor.checkWallet w (DelegationRegistry.delegator d) d))
      (returned [] (DelegationRegistry.getActiveDelegations m agent)).
Proof.
  unfold Monitor.checkAllWallets. rewrite emit_then.
  revert Hexec. generalize (getExecutor_silent w).
  destruct (Executor.getExecutor w) as [t r]; cbn [trace result fst snd].
  intros -> ->. rewrite Haddr, bind_returned.
  apply String.eqb_neq in Hagent. unfold truthy. rewrite Hagent. cbn [negb].
  rewrite ret_bind, cycle_body. reflexivity.
Qed.

(** X13: with the executor and the agent address configured, a cycle checks
    every active delegation of the agent once, in the registry's insertion
    order; a wallet is checked whatever happened while checking the wallets
    before it. *)
Theorem cycle_checks_every_active_delegation (w : World)
  (m : DelegationRegistry.Delegations) (acct agent : string)
  (Hexec : result (Executor.getExecutor w) = Returned acct)
  (Haddr : AGENT_ADDRESS w = Some agent)
  (Hagent : agent <> "") :
  trace (Monitor.checkAllWallets w m)
  = ConsoleLog "Checking all wallets..." ::
    flat_map
      (fun d => trace (Monitor.checkWallet w (DelegationRegistry.delegator d) d))
      (returned [] (DelegationRegistry.getActiveDelegations m agent)).
Proof. exact (checkAllWallets_configured w m acct agent Hexec Haddr Hagent). Qed.

Lemma cycle_checks_every_active_delegation_witness :
  filter isIndexerRequest
    (trace (Monitor.checkAllWallets (sampleWorld (Returned [])) twoGrants))
  = [IndexerRequest "GetAllApprovals" "0xwallet1";
     IndexerRequest "GetAllApprovals" "0xwallet2"].
Proof.
  rewrite (cycle_checks_every_active_delegation (sampleWorld (Returned [])) twoGrants
             sampleAccount "0xagent" eq_refl eq_refl).
  - reflexivity.
  - discriminate.
Defined.

(** X14: a delegation revoked before a cycle starts is not checked in it:
    the cycle after [revoke] checks the active delegations of before,
    without the revoked one. *)
Theorem revoked_delegation_not_checked (w : World)
  (m : DelegationRegistry.Delegations) (k acct agent : string)
  (Hwf : DelegationRegistry.wellFormed m)
  (Hexec : result (Executor.getExecutor w) = Returned acct)
  (Haddr : AGENT_ADDRESS w = Some agent)
  (Hagent : agent <> "") :
  trace (Monitor.checkAllWallets w
           (DelegationRegistry.after (DelegationRegistry.revoke m k) m))
  = ConsoleLog "Checking all wallets..." ::
    flat_map
      (fun d => trace (Monitor.checkWallet w (DelegationRegistry.delegator d) d))
      (filter (fun d => negb (DelegationRegistry.id d =? k))
         (returned [] (DelegationRegistry.getActiveDelegations m agent))).
Proof.
  rewrite (checkAllWallets_configured w _ acct agent Hexec Haddr Hagent).
  now rewrite getActive_after_revoke.
Qed.

Lemma revoked_delegation_not_checked_witness :
  filter isIndexerRequest
    (trace (Monitor.checkAllWallets (sampleWorld (Returned []))
              (DelegationRegistry.after (DelegationRegistry.revoke twoGrants "d1")
                 twoGrants)))
  = [IndexerRequest "GetAllApprovals" "0xwallet2"].
Proof.
  assert (Hwf : DelegationRegistry.wellFormed twoGrants).
  { split.
    - simpl. repeat constructor; simpl; intuition discriminate.
    - repeat constructor. }
  rewrite (revoked_delegation_not_checked (sampleWorld (Returned [])) twoGrants
             "d1" sampleAccount "0xagent" Hwf eq_refl eq_refl).
  - reflexivity.
  - discriminate.
Defined.

(** X15: a whole cycle never submits anything to the authority provider,
    whatever the registry holds and whatever the indexer answers. *)
Theorem cycle_never_submits (w : World) (m : DelegationRegistry.Delegations) :
  authorityCalls (trace (Monitor.checkAllWallets w m)) = 0.
Proof.
  assert (Hall : forall l,
            authorityCalls
              (flat_map (fun d => trace (Monitor.checkWallet w
                                           (DelegationRegistry.delegator d) d)) l) = 0).
  { induction l as [|d l IH]; [reflexivity|].
    cbn [flat_map]. now rewrite authorityCalls_app, authorityCalls_checkWallet, IH. }
  destruct (checkAllWallets_cases w m) as [_ [Hthrown Hnoaddr]].
  destruct (result (Executor.getExecutor w)) as [acct|e] eqn:Hexec.
  - destruct (AGENT_ADDRESS w) as [agent|] eqn:Haddr.
    + destruct (String.eqb_spec agent "") as [->|Hne].
      * rewrite (Hnoaddr acct eq_refl) by reflexivity. reflexivity.
      * rewrite (checkAllWallets_configured w m acct agent Hexec Haddr Hne).
        change (authorityCalls
                  ([ConsoleLog "Checking all wallets..."] ++
                   flat_map (fun d => trace (Monitor.checkWallet w
                                               (DelegationRegistry.delegator d) d))
                     (returned [] (DelegationRegistry.getActiveDelegations m agent)))
                = 0).
        now rewrite authorityCalls_app, Hall.
    + rewrite (Hnoaddr acct eq_refl) by reflexivity. reflexivity.
  - now rewrite (Hthrown e eq_refl).
Qed.

(** ** Scheduling of cycles *)

Lemma cronTasks_step (s : Monitor.Scheduler) (e : Monitor.stimulus) :
  Monitor.cronTasks s <= Monitor.cronTasks (Monitor.step s e).
Proof.
  destruct e; cbn; try lia.
  unfold Monitor.start. destruct (Monitor.isRunning s); cbn; lia.
Qed.

(** X16: a cron task is never cancelled: over any sequence of calls and
    ticks the number of registered tasks does not decrease, a tick after
    [stop] still starts a cycle per task, and [stop] followed by [start]
    registers one more task, so that every later tick starts one more cycle
    than before the restart. *)
Theorem schedule_never_cancelled (es : list Monitor.stimulus) (s : Monitor.Scheduler) :
  Monitor.cronTasks s <= Monitor.cronTasks (Monitor.run es s) /\
  Monitor.inFlight (Monitor.cronTick (Monitor.stop s))
    = Monitor.inFlight s + Monitor.cronTasks s /\
  Monitor.cronTasks (Monitor.start (Monitor.stop s)) = S (Monitor.cronTasks s) /\
  Monitor.cyclesStarted (Monitor.cronTick (Monitor.start (Monitor.stop s)))
    = Monitor.cyclesStarted s + 1 + S (Monitor.cronTasks s).
Proof.
  split; [|split; [|split]].
  - revert s. induction es as [|e es IH]; intro s; [apply le_n|].
    cbn [Monitor.run fold_left]. etransitivity; [apply (cronTasks_step s e)|].
    apply IH.
  - reflexivity.
  - reflexivity.
  - cbn. lia.
Qed.

(** ** HTTP routes *)

(** X17: the wallet-health route never answers 500. It answers 200 with the
    first row the indexer returns, and 404 "Wallet health not found" both
    when the indexer has no row for the address and when the request to the
    indexer fails. *)
Theorem health_route_answers
  (healthIndexer : string -> outcome (list WalletHealthData)) (address : string) :
  result (Server.healthRoute healthIndexer address)
  = Returned
      match healthIndexer (toLowerCase address) with
      | Returned (h :: _) => Server.json (Server.JsonHealth h)
      | _ => Server.statusJson 404 (Server.JsonError "Wallet health not found")
      end /\
  forall r, result (Server.healthRoute healthIndexer address) = Returned r ->
            Server.status r = 200 \/ Server.status r = 404.
Proof.
  assert (H : result (Server.healthRoute healthIndexer address)
              = Returned
                  match healthIndexer (toLowerCase address) with
                  | Returned (h :: _) => Server.json (Server.JsonHealth h)
                  | _ => Server.statusJson 404
                           (Server.JsonError "Wallet health not found")
                  end).
  { unfold Server.healthRoute, getWalletHealth.
    destruct (healthIndexer (toLowerCase address)) as [[|h rest]|e]; reflexivity. }
  split; [exact H|]. intros r. rewrite H. intros [= <-].
  destruct (healthIndexer (toLowerCase address)) as [[|h rest]|e]; cbn; tauto.
Qed.

(** X18: the two approvals routes always answer 200: the approvals the
    indexer returned, or an empty array when the request to the indexer
    failed. *)
Theorem approvals_routes_answer (w : World) (address : string) :
  result (Server.approvalsRoute w address)
  = Returned (Server.json (Server.JsonApprovals
      match indexer w "GetAllApprovals" (toLowerCase address) with
      | Returned l => l
      | Thrown _ => []
      end)) /\
  result (Server.riskyApprovalsRoute w address)
  = Returned (Server.json (Server.JsonApprovals
      match indexer w "GetRiskyApprovals" (toLowerCase address) with
      | Returned l => l
      | Thrown _ => []
      end)).
Proof.
  unfold Server.approvalsRoute, Server.riskyApprovalsRoute,
    getAllApprovals, getRiskyApprovals.
  split.
  - destruct (indexer w "GetAllApprovals" (toLowerCase address)); reflexivity.
  - destruct (indexer w "GetRiskyApprovals" (toLowerCase address)); reflexivity.
Qed.

(** X19: a delegation registered through the register route is active, is
    answered back with success, and is at once among the delegations the
    delegations route lists for its delegator; [hasDelegation] holds for
    the pair. *)
Theorem register_route_then_list (m : DelegationRegistry.Delegations) (now : Z)
  (b : Server.RegisterBody) :
  let d := Server.newDelegation now b in
  let m' := DelegationRegistry.after (DelegationRegistry.register m d) m in
  result (Server.registerRoute m now b)
    = Returned (Server.json (Server.JsonRegistered true d), m') /\
  (exists found,
      result (Server.delegationsRoute m' (Server.delegator b))
        = Returned (Server.json (Server.JsonDelegations found)) /\
      In d found) /\
  result (DelegationRegistry.hasDelegation m' (Server.delegator b) (Server.delegate b))
    = Returned true.
Proof.
  intros d m'.
  assert (Hin : In d (DelegationRegistry.Map_values m')).
  { unfold DelegationRegistry.Map_values. apply in_map_iff.
    exists (DelegationRegistry.id d, d). split; [reflexivity|].
    apply Map_get_In. unfold m', DelegationRegistry.after, DelegationRegistry.register.
    cbn [result snd emit bind ret]. apply Map_get_set_same. }
  split; [reflexivity|]. clearbody m'. split.
  - eexists. split; [reflexivity|]. apply filter_In. split; [exact Hin|].
    apply String.eqb_refl.
  - cbn [DelegationRegistry.hasDelegation ret result snd]. f_equal.
    apply existsb_exists. exists d. split; [exact Hin|].
    unfold d. cbn [Server.newDelegation DelegationRegistry.delegator
                     DelegationRegistry.delegate DelegationRegistry.isActive].
    now rewrite !String.eqb_refl.
Qed.

(** ** Indexer handlers *)

Lemma amountValue_showN (v : N) : amountValue (showN v) = Some v.
Proof.
  unfold amountValue, showN.
  assert (Hnn : N.to_uint v <> Decimal.Nil).
  { destruct v as [|p]; [discriminate|]. apply DecimalPos.Unsigned.to_uint_nonnil. }
  assert (Hs : NilZero.string_of_uint (N.to_uint v)
               = NilEmpty.string_of_uint (N.to_uint v)).
  { unfold NilZero.string_of_uint. destruct (N.to_uint v); congruence. }
  rewrite Hs, NilEmpty.usu. cbn [option_map].
  now rewrite DecimalN.Unsigned.of_to.
Qed.

Lemma showN_eq_iff (v v' : N) : showN v = showN v' <-> v = v'.
Proof.
  split; [|now intros ->]. intros H.
  assert (H' : amountValue (showN v) = amountValue (showN v')) by now rewrite H.
  rewrite !amountValue_showN in H'. now injection H'.
Qed.

(** X20: an approval as erc20Handler writes it and the approvals queries
    select it: its amount string reads back as the approved value; it is
    flagged risky exactly when the value is 2^256 - 1; the rule engine
    proposes a revoke for it exactly then, by the unlimited rule (the risky
    rule never decides on such data); and its status is ACTIVE exactly when
    the value is not zero. *)
Theorem indexed_approval_rules (owner' spender' : string) (value : N)
  (address : string) (blockNumber : N) (transactionHash : string)
  (timestamp logIndex : N) (now : Z) :
  let a := selectApproval
             (Erc20Handler.approvalEntity owner' spender' value address blockNumber
                transactionHash timestamp logIndex) in
  amountValue (amount a) = Some value /\
  (isRisky a = true <-> value = MAX_UINT256) /\
  evaluateApproval now a
    = (if (value =? MAX_UINT256)%N then Some (unlimitedAction a) else None) /\
  (status a = "ACTIVE" <-> value <> 0%N).
Proof.
  intros a.
  assert (Ham : amount a = showN value) by reflexivity.
  assert (Hri : isRisky a = Erc20Handler.checkIfRisky (showN value) timestamp)
    by reflexivity.
  assert (Hst : status a = if showN value =? "0" then "REVOKED" else "ACTIVE")
    by reflexivity.
  clearbody a.
  assert (Hmax : showN MAX_UINT256 = UNLIMITED) by (vm_compute; reflexivity).
  assert (Hzero : showN 0 = "0") by reflexivity.
  assert (Hrisky : Erc20Handler.checkIfRisky (showN value) timestamp = true
                   <-> value = MAX_UINT256).
  { unfold Erc20Handler.checkIfRisky.
    change Erc20Handler.UNLIMITED_APPROVAL with UNLIMITED.
    rewrite <- Hmax, String.eqb_eq. apply showN_eq_iff. }
  split; [rewrite Ham; apply amountValue_showN|].
  split; [rewrite Hri; exact Hrisky|]. split.
  - unfold evaluateApproval, checkUnlimitedApproval, checkRiskyApproval,
      checkStaleApproval, unlimitedAction.
    rewrite Ham, Hri.
    destruct (N.eqb_spec value MAX_UINT256) as [E|E].
    + rewrite E, Hmax, String.eqb_refl. reflexivity.
    + assert (Hne : (showN value =? UNLIMITED) = false).
      { apply String.eqb_neq. rewrite <- Hmax. intros H.
        now apply showN_eq_iff in H. }
      rewrite Hne.
      destruct (Erc20Handler.checkIfRisky (showN value) timestamp) eqn:Er;
        [|reflexivity].
      exfalso. apply E. now apply Hrisky.
  - rewrite Hst, <- Hzero.
    destruct (String.eqb_spec (showN value) (showN 0)) as [E|E].
    + apply showN_eq_iff in E. subst value. split; [discriminate|congruence].
    + split; [intros _ H; subst value; now apply E|reflexivity].
Qed.

(** X21: the health score erc20Handler computes lies between 0 and 100; it
    is 100 exactly when no approval is risky and 0 exactly from ten risky
    approvals on; the risky count never exceeds the number of approvals. *)
Theorem ts_health_score_bounds (wallet : string)
  (approvals : list Erc20Handler.TokenApproval) (now : Z) :
  let h := Erc20Handler.walletHealthEntity wallet approvals now in
  (0 <= Erc20Handler.healthScore h <= 100)%Z /\
  (Erc20Handler.healthScore h = 100%Z <-> Erc20Handler.riskyApprovals h = 0) /\
  (Erc20Handler.healthScore h = 0%Z <-> 10 <= Erc20Handler.riskyApprovals h) /\
  Erc20Handler.riskyApprovals h <= length approvals.
Proof.
  cbn zeta.
  cbn [Erc20Handler.walletHealthEntity Erc20Handler.healthScore
         Erc20Handler.riskyApprovals].
  pose proof (filter_length_le Erc20Handler.isRisky approvals) as Hle.
  set (n := length (filter Erc20Handler.isRisky approvals)) in *.
  split; [lia|]. split; [lia|]. split; [lia|exact Hle].
Qed.

(** X22: the health score EventHandlers computes lies between 0 and 100, is
    100 exactly when the wallet has no ACTIVE approval, counts risky
    approvals among the ACTIVE ones only, and does not depend on the rows
    that are not ACTIVE. *)
Theorem js_health_score (approvals : list EventHandlers.ApprovalRow) :
  exists h,
    EventHandlers.updateWalletHealth (Some approvals) = Some h /\
    (0 <= EventHandlers.healthScore h <= 100)%Z /\
    EventHandlers.healthScore h
      = Z.max 0 (100 - 10 * Z.of_nat (EventHandlers.riskyApprovalsCount h)
                     - 2 * Z.of_nat (EventHandlers.activeApprovalsCount h))%Z /\
    EventHandlers.riskyApprovalsCount h <= EventHandlers.activeApprovalsCount h
      <= length approvals /\
    (EventHandlers.healthScore h = 100%Z <-> EventHandlers.activeApprovalsCount h = 0) /\
    EventHandlers.updateWalletHealth
      (Some (filter (fun a => EventHandlers.rowStatus a =? "ACTIVE") approvals))
    = Some h.
Proof.
  eexists. split; [reflexivity|].
  cbn [EventHandlers.healthScore EventHandlers.riskyApprovalsCount
         EventHandlers.activeApprovalsCount].
  pose proof (filter_length_le (fun a => EventHandlers.rowStatus a =? "ACTIVE")
                approvals) as Ha.
  pose proof (filter_length_le EventHandlers.rowIsRisky
                (filter (fun a => EventHandlers.rowStatus a =? "ACTIVE") approvals))
    as Hr.
  set (active := filter (fun a => EventHandlers.rowStatus a =? "ACTIVE") approvals) in *.
  split; [lia|]. split; [lia|]. split; [lia|]. split; [lia|].
  unfold EventHandlers.updateWalletHealth.
  assert (Hidem : filter (fun a => EventHandlers.rowStatus a =? "ACTIVE") active = active).
  { apply filter_id. intros x Hx. unfold active in Hx. now apply filter_In in Hx. }
  now rewrite Hidem.
Qed.

(** X23: the flags EventHandlers writes on an approval: it is risky exactly
    when its value reaches the threshold 2^176 - 1; it has a revocation time
    exactly when its status is not ACTIVE; an unlimited approval is always
    ACTIVE; and whatever erc20Handler flags risky, EventHandlers flags
    risky too. *)
Theorem js_approval_flags (value blockTimestamp : N) (spender' : string) :
  (EventHandlers.isRisky value spender' = true <-> (UNLIMITED_THRESHOLD <= value)%N) /\
  (EventHandlers.status value = "ACTIVE"
     <-> EventHandlers.revokedAt value blockTimestamp = None) /\
  (EventHandlers.isUnlimited value = true -> EventHandlers.status value = "ACTIVE") /\
  (Erc20Handler.checkIfRisky (showN value) blockTimestamp = true ->
     EventHandlers.isRisky value spender' = true).
Proof.
  unfold EventHandlers.isRisky, EventHandlers.isSpenderRisky, EventHandlers.isUnlimited,
    EventHandlers.status, EventHandlers.revokedAt.
  rewrite orb_false_r.
  split; [apply N.leb_le|]. split; [|split].
  - destruct (N.ltb_spec 0 value) as [H|H]; destruct (N.eqb_spec value 0) as [E|E];
      try lia; split; try reflexivity; discriminate.
  - intros H. apply N.leb_le in H.
    assert (0 < UNLIMITED_THRESHOLD)%N by (vm_compute; reflexivity).
    destruct (N.ltb_spec 0 value); [reflexivity|lia].
  - unfold Erc20Handler.checkIfRisky. intros H. apply String.eqb_eq in H.
    assert (Hmax : showN MAX_UINT256 = Erc20Handler.UNLIMITED_APPROVAL)
      by (vm_compute; reflexivity).
    rewrite <- Hmax in H. apply showN_eq_iff in H. subst value.
    vm_compute. reflexivity.
Qed.
